(** * wsg-portal: magic-link authentication, hydration and profile updates

    A shallow embedding of the Express server of the WSG student portal
    (magic-link issuance and redemption, dev login, student hydration
    and the allow-listed profile update), with the properties its
    specification states about them.

    Conventions of the embedding:
    - a JavaScript string is a [string] whose characters are the code
      units U+0000..U+00FF;
    - a JavaScript value is a [value]; a plain object is a
      [gmap string value], an absent property reads as [VUndefined];
    - numbers are only stored, compared with zero and added to clock
      readings, so they are integers ([Z], milliseconds for instants);
    - the record store (Airtable) and the mailer (Resend) are external:
      the store is any instance of the [RecordStore] interface;
    - [Date.now()] readings, the identifiers drawn from [uuidv4()] and
      the order in which concurrent lookups complete are inputs of the
      operation that consumes them. *)

From Stdlib Require Import ZArith NArith Ascii String List Lia.
From stdpp Require Import gmap strings list fin_maps.

Local Set Warnings "-register-all".
Local Open Scope Z_scope.

(** ** JavaScript strings *)

Module JsString.

(** The code units [String.prototype.toLowerCase] changes below
    U+0100: A-Z, and the Latin-1 capitals U+00C0..U+00DE except the
    multiplication sign U+00D7. *)
Definition is_upper (c : ascii) : bool :=
  let n := N_of_ascii c in
  ((65 <=? n) && (n <=? 90)
   || (192 <=? n) && (n <=? 222) && negb (n =? 215))%N.

Definition lower_unit (c : ascii) : ascii :=
  if is_upper c then ascii_of_N (N_of_ascii c + 32) else c.

Fixpoint toLowerCase (s : string) : string :=
  match s with
  | EmptyString => EmptyString
  | String c s' => String (lower_unit c) (toLowerCase s')
  end.

(** White space and line terminators below U+0100: TAB, LF, VT, FF,
    CR, SP and NBSP. *)
Definition is_space (c : ascii) : bool :=
  let n := N_of_ascii c in
  ((9 <=? n) && (n <=? 13) || (n =? 32) || (n =? 160))%N.

Fixpoint trimStart (s : string) : string :=
  match s with
  | EmptyString => EmptyString
  | String c s' => if is_space c then trimStart s' else s
  end.

Fixpoint trimEnd (s : string) : string :=
  match s with
  | EmptyString => EmptyString
  | String c s' =>
      match trimEnd s' with
      | EmptyString => if is_space c then EmptyString else String c EmptyString
      | r => String c r
      end
  end.

Definition trim (s : string) : string := trimEnd (trimStart s).

(** [s.split(' ')[0]]: the characters before the first space. *)
Fixpoint split_first (s : string) : string :=
  match s with
  | EmptyString => EmptyString
  | String c s' =>
      if (N_of_ascii c =? 32)%N then EmptyString else String c (split_first s')
  end.

End JsString.

(** ** JavaScript values *)

Inductive value : Type :=
  | VUndefined
  | VNull
  | VBool (b : bool)
  | VNum (n : Z)
  | VStr (s : string)
  | VArr (xs : list value)
  | VObj (o : gmap string value).

(** [!!v] *)
Definition truthy (v : value) : bool :=
  match v with
  | VUndefined | VNull => false
  | VBool b => b
  | VNum n => negb (n =? 0)
  | VStr s => negb (String.eqb s "")
  | VArr _ | VObj _ => true
  end.

(** [o[k]] on a plain object *)
Definition prop (o : gmap string value) (k : string) : value :=
  default VUndefined (o !! k).

(** [a || b] *)
Definition js_or (a b : value) : value := if truthy a then a else b.

(** [x && x.length > 0]. A string and an array have a length; a
    number or a boolean has none ([undefined > 0] is false); the object
    cells of the record store (attachments, collaborators, barcodes)
    carry no [length] property either. *)
Definition has_elems (x : value) : bool :=
  match x with
  | VStr s => negb (String.eqb s "")
  | VArr xs => negb (bool_decide (xs = []))
  | _ => false
  end.

(** [x[0]] for an [x] that passed [has_elems]. *)
Definition index0 (x : value) : value :=
  match x with
  | VArr (v :: _) => v
  | VStr (String c _) => VStr (String c EmptyString)
  | _ => VUndefined
  end.

(** ** Results of fallible operations

    [Err message] is a thrown [Error] or a rejected promise, with its
    [err.message]. *)

Inductive result (A : Type) : Type :=
  | Ok (a : A)
  | Err (message : string).
Arguments Ok {A} a.
Arguments Err {A} message.

(** [meetingIds.map(f)]: only an array has [map]. *)
Definition js_map (f : value → value) (x : value) : result (list value) :=
  match x with
  | VArr xs => Ok (map f xs)
  | _ => Err "meetingIds.map is not a function"
  end.

(** [email.toLowerCase().trim()]: only a string has [toLowerCase]. *)
Definition normalize (email : value) : result string :=
  match email with
  | VStr s => Ok (JsString.trim (JsString.toLowerCase s))
  | _ => Err "toLowerCase is not a function"
  end.
Arguments normalize : simpl never.

(** ** The record store *)

Record record : Type := mkRecord {
  id : string;
  fields : gmap string value
}.

(** [record.get(name)] *)
Definition get (r : record) (name : string) : value := prop (fields r) name.

(** The capability the server consumes from Airtable, for a store in
    state [Base]:
    - [base(table).select({filterByFormula, maxRecords: 1}).firstPage()],
    - [base(table).find(id)],
    - [base(table).update(id, patch)], the only call that changes it. *)
Class RecordStore (Base : Type) : Type := {
  select : Base → string → string → result (list record);
  find : Base → string → value → result record;
  update : Base → string → string → gmap string value → result record * Base
}.

(** [`{Student's Email} = '${email}'`] *)
Definition byEmail (email : string) : string :=
  "{Student's Email} = '" +:+ email +:+ "'".

(** ** Promise.all

    [Promise.all] over promises that all fulfil. Slot [i] of the result
    starts out empty and receives the value of the [i]-th promise at the
    moment that promise settles. [order] is the completion order: at
    each step its head, taken modulo the number of promises still
    pending, selects the one that settles next. *)

Fixpoint settle (fuel : nat) (order : list nat)
    (pending : list (nat * value)) (values : list value) : list value :=
  match fuel with
  | O => values
  | S fuel' =>
      match pending !! (hd 0%nat order mod length pending)%nat with
      | Some (i, v) =>
          settle fuel' (tl order)
            (delete (hd 0%nat order mod length pending)%nat pending)
            (<[i := v]> values)
      | None => values
      end
  end.

Definition Promise_all (order : list nat) (promises : list value) : list value :=
  settle (length promises) order
    (imap (λ i v, (i, v)) promises)
    (replicate (length promises) VUndefined).

(** ** Hydration *)

Definition is_null (v : value) : bool :=
  match v with VNull => true | _ => false end.

Section Hydrator.

Context {Base : Type} `{RecordStore Base}.

(** Fetch a mentor by their Airtable record ID; [null] when the
    lookup fails. *)
Definition getMentorById (st : Base) (mentorId : value) : value :=
  match find st "Mentors" mentorId with
  | Ok record =>
      VObj (fields record
            ∪ {[ "id" := VStr (id record); "name" := get record "Name" ]})
  | Err _ => VNull
  end.

(** Fetch a meeting by its Airtable record ID and hydrate the mentor
    who attended; [null] when the lookup fails. *)
Definition getMeetingById (st : Base) (meetingId : value) : value :=
  match find st "Student-Mentor Meetings" meetingId with
  | Ok record =>
      let meeting := fields record ∪ {[ "id" := VStr (id record) ]} in
      let mentorIds := prop meeting "Mentors Attended" in
      if has_elems mentorIds then
        let mentor := getMentorById st (index0 mentorIds) in
        if truthy mentor
        then VObj (<[ "mentorAttended" := mentor ]> meeting)
        else VObj meeting
      else VObj meeting
  | Err _ => VNull
  end.

(** One linked mentor: [student[key] = mentor] when the first id of
    the link column [column] resolves. *)
Definition hydrateMentor (st : Base) (column key : string)
    (student : gmap string value) : gmap string value :=
  let mentorIds := prop student column in
  if has_elems mentorIds then
    let mentor := getMentorById st (index0 mentorIds) in
    if truthy mentor then <[ key := mentor ]> student else student
  else student.

(** Hydrate a student record with linked mentor data. The meeting
    lookups run concurrently; they only read the store, so the value of
    each promise does not depend on how they interleave, and [order] is
    the order in which they settle. *)
Definition hydrateStudent (st : Base) (order : list nat) (record : record)
    : result (gmap string value) :=
  let student := fields record ∪ {[ "id" := VStr (id record) ]} in
  let student := hydrateMentor st "Recruitment Manager" "recruitmentManager" student in
  let student := hydrateMentor st "Lead Mentor" "leadMentor" student in
  let meetingIds := prop student "Student-Mentor Meetings" in
  if has_elems meetingIds then
    match js_map (getMeetingById st) meetingIds with
    | Ok promises =>
        let meetings := Promise_all order promises in
        Ok (<[ "meetings" :=
                 VArr (List.filter (λ m, negb (is_null m)) meetings) ]> student)
    | Err e => Err e
    end
  else Ok (<[ "meetings" := VArr [] ]> student).

End Hydrator.

(** ** Process state and configuration *)

(** An entry of the in-memory token store. *)
Record TokenData : Type := mkTokenData {
  email : string;
  expiresAt : Z
}.

(** Session duration: 6 months in milliseconds *)
Definition SESSION_DURATION_MS : Z := 6 * 30 * 24 * 60 * 60 * 1000.

(** The message handed to [resend.emails.send]; its HTML body is
    determined by the greeting name and the link. *)
Record mail : Type := mkMail {
  mail_from : string;
  mail_to : string;
  mail_subject : string;
  mail_firstName : value;
  mail_link : string
}.

(** [process.env] and the optional mailer. [resend] is [None] when no
    [RESEND_API_KEY] is configured. *)
Record Config : Type := mkConfig {
  DEV_MODE : option string;
  DEV_TEST_EMAIL : option string;
  APP_URL : option string;
  PORT : string;
  EMAIL_FROM : option string;
  resend : option (mail → result unit)
}.

(** [process.env.X || fallback] *)
Definition env_or (x : option string) (fallback : string) : string :=
  match x with
  | Some s => if String.eqb s "" then fallback else s
  | None => fallback
  end.

(** What a handler does to the outside, in program order: writes to
    the token map, queries and updates of the Students table, mail.
    The read-only link lookups of the hydrator are not recorded. *)
Inductive event : Type :=
  | TokenSet (token : string) (data : TokenData)
  | TokenDelete (token : string)
  | StudentsSelect (formula : string)
  | StudentsUpdate (recordId : string) (patch : gmap string value)
  | MailSend (m : mail).

Record World (Base : Type) : Type := mkWorld {
  magicLinkTokens : gmap string TokenData;
  base : Base;
  trace : list event
}.
Arguments mkWorld {Base} _ _ _.
Arguments magicLinkTokens {Base} _.
Arguments base {Base} _.
Arguments trace {Base} _.

Record Response : Type := mkResponse {
  status : Z;
  body : gmap string value
}.

(** [res.json(o)] and [res.status(code).json(o)]; the body is the
    object handed to [json], before it is serialized. *)
Definition json (o : gmap string value) : Response := mkResponse 200 o.
Definition error (code : Z) (message : string) : Response :=
  mkResponse code {[ "error" := VStr message ]}.
Definition failure (message details : string) : Response :=
  mkResponse 500 {[ "error" := VStr message; "details" := VStr details ]}.

(** ** Handler computations: state and exceptions *)

Definition M (Base A : Type) : Type := World Base → result A * World Base.

#[export] Instance M_ret {Base} : MRet (M Base) := λ A a w, (Ok a, w).

#[export] Instance M_bind {Base} : MBind (M Base) := λ A B k m w,
  match m w with
  | (Ok a, w') => k a w'
  | (Err e, w') => (Err e, w')
  end.

(** A pure computation that may throw. *)
Definition lift {Base A} (r : result A) : M Base A := λ w, (r, w).

(** [try { m } catch (err) { res.status(500).json({error, details}) }] *)
Definition handler {Base} (message : string) (m : M Base Response)
    : World Base → Response * World Base :=
  λ w, match m w with
       | (Ok r, w') => (r, w')
       | (Err e, w') => (failure message e, w')
       end.

(** ** The server *)

(** The fields a student may change on their own profile. *)
Definition allowedFields : list string :=
  [ "Current University / Institution";
    "Degree / Major";
    "Graduation Year";
    "GPA";
    "Current Clubs / Extracurriculars";
    "CV/Resume";
    "Short-Term Goals (1-3 Years)";
    "What countries do you own a passport?" ].

(** [field in updates]: an array has none of the allow-listed names. *)
Definition has_property (updates : value) (field : string) : bool :=
  match updates with
  | VObj o => bool_decide (is_Some (o !! field))
  | _ => false
  end.

(** [updates[field]] *)
Definition member (updates : value) (field : string) : value :=
  match updates with
  | VObj o => prop o field
  | _ => VUndefined
  end.

Definition is_undefined (v : value) : bool :=
  match v with VUndefined => true | _ => false end.

(** One turn of the loop over [allowedFields]: only include non-null
    values (0 is allowed for numbers, an empty string clears a text
    field). *)
Definition include_field (updates : value)
    (fieldsToUpdate : gmap string value) (field : string) : gmap string value :=
  if has_property updates field then
    let value := member updates field in
    if negb (is_null value) && negb (is_undefined value)
    then <[ field := value ]> fieldsToUpdate
    else fieldsToUpdate
  else fieldsToUpdate.

(** The patch built from the [updates] of the request. *)
Definition fieldsToUpdate (updates : value) : gmap string value :=
  foldl (include_field updates) ∅ allowedFields.

(** [typeof v === 'object'] *)
Definition typeof_object (v : value) : bool :=
  match v with VNull | VArr _ | VObj _ => true | _ => false end.

(** [student.get('Preferred First Name')
     || student.get('Name')?.split(' ')[0] || 'there'] *)
Definition firstName_of (student : record) : result value :=
  let preferred := get student "Preferred First Name" in
  if truthy preferred then Ok preferred
  else match get student "Name" with
       | VUndefined | VNull => Ok (VStr "there")
       | VStr s => Ok (js_or (VStr (JsString.split_first s)) (VStr "there"))
       | _ => Err "split is not a function"
       end.

(** The body of a successful login: a fresh session and the identity
    projection of the student record. *)
Definition session_reply (sessionToken : string) (sessionExpiresAt : Z)
    (student : record) : gmap string value :=
  {[ "success" := VBool true;
     "session" := VObj {[ "token" := VStr sessionToken;
                          "expiresAt" := VNum sessionExpiresAt ]};
     "student" := VObj {[ "id" := VStr (id student);
                          "email" := get student "Student's Email";
                          "name" := js_or (get student "Name") (get student "Student ID");
                          "firstName" := get student "Preferred First Name" ]} ]}.

Section Server.

Context {Base : Type} `{RecordStore Base}.
Variable cfg : Config.

(** [magicLinkTokens.get(token)]: the keys of the map are strings. *)
Definition tokens_get (token : value) : M Base (option TokenData) :=
  λ w, (Ok match token with
           | VStr t => magicLinkTokens w !! t
           | _ => None
           end, w).

(** [magicLinkTokens.set(token, data)] *)
Definition tokens_set (token : string) (data : TokenData) : M Base unit :=
  λ w, (Ok tt, mkWorld (<[ token := data ]> (magicLinkTokens w)) (base w)
                 (trace w ++ [TokenSet token data])).

(** [magicLinkTokens.delete(token)] *)
Definition tokens_delete (token : value) : M Base unit :=
  λ w, match token with
       | VStr t => (Ok tt, mkWorld (delete t (magicLinkTokens w)) (base w)
                             (trace w ++ [TokenDelete t]))
       | _ => (Ok tt, w)
       end.

(** [await base('Students').select({filterByFormula, maxRecords: 1}).firstPage()] *)
Definition students_select (formula : string) : M Base (list record) :=
  λ w, (select (base w) "Students" formula,
        mkWorld (magicLinkTokens w) (base w) (trace w ++ [StudentsSelect formula])).

(** [await base('Students').update(recordId, patch)] *)
Definition students_update (recordId : string) (patch : gmap string value)
    : M Base record :=
  λ w, let '(r, b) := update (base w) "Students" recordId patch in
       (r, mkWorld (magicLinkTokens w) b (trace w ++ [StudentsUpdate recordId patch])).

(** [await resend.emails.send(m)] *)
Definition send_mail (send : mail → result unit) (m : mail) : M Base unit :=
  λ w, (send m, mkWorld (magicLinkTokens w) (base w) (trace w ++ [MailSend m])).

(** [await hydrateStudent(record)] against the store as it is now. *)
Definition hydrate (order : list nat) (r : record) : M Base (gmap string value) :=
  λ w, (hydrateStudent (base w) order r, w).

(** Find a student by email and return the hydrated profile; [None]
    is the [null] of an unknown email. Errors are rethrown. *)
Definition getStudentByEmail (order : list nat) (email : string)
    : M Base (option (gmap string value)) :=
  records ← students_select (byEmail email);
  match records with
  | [] => mret None
  | r :: _ => student ← hydrate order r; mret (Some student)
  end.

(** POST /api/auth/magic-link *)
Definition magic_link (now : Z) (uuid : string) (body : gmap string value)
    : World Base → Response * World Base :=
  handler "Failed to send magic link" (
    let email := prop body "email" in
    if negb (truthy email) then mret (error 400 "Email is required")
    else
      normalizedEmail ← lift (normalize email);
      records ← students_select (byEmail normalizedEmail);
      match records with
      | [] => mret (error 404 "No student found with this email")
      | student :: _ =>
          firstName ← lift (firstName_of student);
          let token := uuid in
          let expiresAt := now + 15 * 60 * 1000 in
          tokens_set token (mkTokenData normalizedEmail expiresAt);;
          let baseUrl := env_or (APP_URL cfg) ("http://localhost:" +:+ PORT cfg) in
          let magicLink := baseUrl +:+ "?token=" +:+ token in
          match resend cfg with
          | Some send =>
              send_mail send
                (mkMail (env_or (EMAIL_FROM cfg) "WSG Portal <noreply@resend.dev>")
                        normalizedEmail "Sign in to WSG Student Portal"
                        firstName magicLink);;
              mret (json {[ "success" := VBool true;
                            "message" := VStr "Magic link sent to your email" ]})
          | None =>
              mret (json {[ "success" := VBool true;
                            "message" := VStr "Magic link generated";
                            "devMode" := VBool true;
                            "magicLink" := VStr magicLink ]})
          end
      end).

(** POST /api/auth/dev-login *)
Definition dev_login (now : Z) (uuid : string) (body : gmap string value)
    : World Base → Response * World Base :=
  handler "Dev login failed" (
    if negb (bool_decide (DEV_MODE cfg = Some "true"))
    then mret (error 403 "Dev login not available in production")
    else
      let email := prop body "email" in
      let testEmail :=
        js_or email (VStr (env_or (DEV_TEST_EMAIL cfg) "test@example.com")) in
      normalizedEmail ← lift (normalize testEmail);
      records ← students_select (byEmail normalizedEmail);
      match records with
      | [] => mret (error 404 ("No student found with email: " +:+ normalizedEmail))
      | student :: _ =>
          let sessionToken := uuid in
          let sessionExpiresAt := now + SESSION_DURATION_MS in
          mret (json (session_reply sessionToken sessionExpiresAt student))
      end).

(** POST /api/auth/verify. [now] is the clock at the expiry check,
    [now'] the clock when the session is minted. *)
Definition verify (now now' : Z) (uuid : string) (body : gmap string value)
    : World Base → Response * World Base :=
  handler "Verification failed" (
    let token := prop body "token" in
    if negb (truthy token) then mret (error 400 "Token is required")
    else
      tokenData ← tokens_get token;
      match tokenData with
      | None => mret (error 401 "Invalid or expired link")
      | Some tokenData =>
          if now >? expiresAt tokenData then
            tokens_delete token;;
            mret (error 401 "Link has expired. Please request a new one.")
          else
            tokens_delete token;;
            records ← students_select (byEmail (email tokenData));
            match records with
            | [] => mret (error 404 "Student not found")
            | student :: _ =>
                let sessionToken := uuid in
                let sessionExpiresAt := now' + SESSION_DURATION_MS in
                mret (json (session_reply sessionToken sessionExpiresAt student))
            end
      end).

(** GET /student/:email *)
Definition get_student (order : list nat) (email : string)
    : World Base → Response * World Base :=
  handler "Failed to fetch student" (
    student ← getStudentByEmail order email;
    match student with
    | None => mret (error 404 "Student not found")
    | Some student => mret (json student)
    end).

(** POST /api/student/update *)
Definition update_student (order : list nat) (body : gmap string value)
    : World Base → Response * World Base :=
  handler "Failed to update student profile" (
    let email := prop body "email" in
    let updates := prop body "updates" in
    if negb (truthy email) then mret (error 400 "Email is required")
    else if negb (truthy updates) || negb (typeof_object updates)
    then mret (error 400 "Updates object is required")
    else
      normalizedEmail ← lift (normalize email);
      records ← students_select (byEmail normalizedEmail);
      match records with
      | [] => mret (error 404 "Student not found")
      | studentRecord :: _ =>
          updatedRecord ← students_update (id studentRecord) (fieldsToUpdate updates);
          updatedStudent ← hydrate order updatedRecord;
          mret (json {[ "success" := VBool true;
                        "student" := VObj updatedStudent ]})
      end).

End Server.

(** ** Requests and runs of the server *)

Inductive request : Type :=
  | MagicLink (now : Z) (uuid : string) (body : gmap string value)
  | DevLogin (now : Z) (uuid : string) (body : gmap string value)
  | Verify (now now' : Z) (uuid : string) (body : gmap string value)
  | GetStudent (order : list nat) (email : string)
  | UpdateStudent (order : list nat) (body : gmap string value).

Section Runs.

Context {Base : Type} `{RecordStore Base}.
Variable cfg : Config.

Definition serve (r : request) : World Base → Response * World Base :=
  match r with
  | MagicLink now uuid body => magic_link cfg now uuid body
  | DevLogin now uuid body => dev_login cfg now uuid body
  | Verify now now' uuid body => verify now now' uuid body
  | GetStudent order email => get_student order email
  | UpdateStudent order body => update_student order body
  end.

(** The state after serving the requests one after the other. *)
Definition run (rs : list request) (w : World Base) : World Base :=
  foldl (λ w r, (serve r w).2) w rs.

(** The request issues a magic link under the token [t]. *)
Definition issues (t : string) (r : request) : Prop :=
  match r with
  | MagicLink _ uuid _ => uuid = t
  | _ => False
  end.

(** The request presents the token [t] for redemption. *)
Definition redeems (t : string) (r : request) : Prop :=
  match r with
  | Verify _ _ _ body => body !! "token" = Some (VStr t)
  | _ => False
  end.

End Runs.

(** ** A reference record store

    Three in-memory tables. A filter formula selects the records whose
    email cell renders to exactly that formula; [update] overlays the
    patch on the stored cells. *)

Module MemStore.

Record t : Type := mk {
  students : list record;
  mentors : list record;
  meetings : list record
}.

Definition table (b : t) (name : string) : list record :=
  if String.eqb name "Students" then students b
  else if String.eqb name "Mentors" then mentors b
  else if String.eqb name "Student-Mentor Meetings" then meetings b
  else [].

Definition matches (formula : string) (r : record) : bool :=
  match get r "Student's Email" with
  | VStr e => String.eqb formula (byEmail e)
  | _ => false
  end.

Definition has_id (i : string) (r : record) : bool := String.eqb (id r) i.

Definition mem_select (b : t) (name formula : string) : result (list record) :=
  Ok (take 1 (List.filter (matches formula) (table b name))).

Definition mem_find (b : t) (name : string) (i : value) : result record :=
  match i with
  | VStr i =>
      match List.find (has_id i) (table b name) with
      | Some r => Ok r
      | None => Err "NOT_FOUND"
      end
  | _ => Err "NOT_FOUND"
  end.

Definition patch_record (i : string) (patch : gmap string value) (r : record) : record :=
  if has_id i r then mkRecord (id r) (patch ∪ fields r) else r.

Definition mem_update (b : t) (name i : string) (patch : gmap string value)
    : result record * t :=
  match List.find (has_id i) (students b) with
  | Some r =>
      (Ok (patch_record i patch r),
       mk (map (patch_record i patch) (students b)) (mentors b) (meetings b))
  | None => (Err "NOT_FOUND", b)
  end.

#[global] Instance store : RecordStore t :=
  {| select := mem_select; find := mem_find; update := mem_update |}.

End MemStore.

(** ** Sample data *)

Module Sample.

Import MemStore.

Definition jane : record :=
  mkRecord "recJane"
    {[ "Student's Email" := VStr "jane@example.com";
       "Name" := VStr "Jane Doe";
       "GPA" := VStr "3.7";
       "Lead Mentor" := VArr [VStr "recMia"];
       "Recruitment Manager" := VArr [VStr "recGone"];
       "Student-Mentor Meetings" :=
         VArr [VStr "recM1"; VStr "recLost"; VStr "recM2"; VStr "recM3"] ]}.

Definition omar : record :=
  mkRecord "recOmar"
    {[ "Student's Email" := VStr "omar@example.com";
       "Name" := VStr "Omar Aziz" ]}.

Definition mia : record :=
  mkRecord "recMia" {[ "Name" := VStr "Mia Chen" ]}.

Definition meeting (i : string) (attended : list value) : record :=
  mkRecord i {[ "Mentors Attended" := VArr attended ]}.

Definition airtable : t :=
  mk [jane; omar] [mia]
     [meeting "recM1" [VStr "recMia"]; meeting "recM2" []; meeting "recM3" [VStr "recGone"]].

Definition cfg : Config := mkConfig None None None "3000" None None.

Definition cfg_dev : Config := mkConfig (Some "true") None None "3000" None None.

Definition w0 : World t := mkWorld ∅ airtable [].

(** Request bodies. *)
Definition jane_login : gmap string value :=
  {[ "email" := VStr "Jane@Example.com " ]}.

Definition tok1 : gmap string value := {[ "token" := VStr "tok-1" ]}.

Definition tok9 : gmap string value := {[ "token" := VStr "tok-9" ]}.

Definition jane_updates : gmap string value :=
  {[ "GPA" := VStr "4.0";
     "Name" := VStr "Mallory";
     "Degree / Major" := VNull;
     "CV/Resume" := VStr "" ]}.

Definition jane_update : gmap string value :=
  {[ "email" := VStr "jane@example.com"; "updates" := VObj jane_updates ]}.

(** A body that sends null for a cell Jane has and an empty string
    for one she lacks. *)
Definition jane_blank : gmap string value :=
  {[ "email" := VStr "jane@example.com";
     "updates" := VObj {[ "GPA" := VNull; "CV/Resume" := VStr "" ]} ]}.

(** The state after a magic link was issued to Jane at instant 1000
    under the token [tok-1]. *)
Definition w1 : World t := (magic_link cfg 1000 "tok-1" jane_login w0).2.

(** A state whose token [tok-9] is bound to an email without a
    student record. *)
Definition w9 : World t :=
  mkWorld {[ "tok-9" := mkTokenData "gone@example.com" 5000 ]} airtable [].

End Sample.

(** ** The mentor directory *)

(** [base(table).select({filterByFormula, sort: [{field, direction}]}).all()]:
    the listing capability the directory consumes from Airtable. *)
Class RecordListing (Base : Type) : Type := {
  select_all : Base → string → string → string → string → result (list record)
}.

(** [v?.value] *)
Definition member_value (v : value) : value :=
  match v with
  | VObj o => prop o "value"
  | _ => VUndefined
  end.

(** The projection of a mentor record the directory sends out. *)
Definition mentor_card (record : record) : gmap string value :=
  list_to_map
    [ ("id", VStr (id record));
      ("name", get record "Name");
      ("headshot", get record "Headshot");
      ("company", get record "Current/Upcoming Company");
      ("jobTitle", get record "Job Title");
      ("industry", get record "Industry/Sector & Group");
      ("education", get record "Education");
      ("degree", get record "Degree");
      ("graduationYear", get record "Graduation Year");
      ("location", get record "Location");
      ("type", get record "Type of Mentor");
      ("linkedin", get record "LinkedIn");
      ("skills", get record "Skills");
      ("intro", js_or (get record "Mentor Intro")
                      (member_value (get record "AI Mentor Intro")));
      ("previousExperience", get record "Previous Experience");
      ("otherOffers", get record "What other offers did you receive?") ].

(** GET /api/mentors: all active mentors for the Find a Mentor
    feature, sorted by the store. *)
Definition list_mentors {Base : Type} `{RecordListing Base}
    : World Base → Response * World Base :=
  handler "Failed to fetch mentors" (
    records ← (λ w, (select_all (base w) "Mentors"
                       "{Mentor Active Status} = 'Active'" "Name" "asc", w));
    mret (json {[ "mentors" :=
                    VArr (map (λ record, VObj (mentor_card record)) records) ]})).

(** ** The AI chat *)

(** The conversions of the JavaScript runtime the chat handler leans
    on for values that are not primitives of the model: [String(v)] of
    a number, an array or an object (which may throw), and [v > 0] for
    a string, an array or an object. *)
Record Runtime : Type := mkRuntime {
  toString : value → result string;
  positive : value → bool
}.

(** [`${v}`] *)
Definition interpolate (rt : Runtime) (v : value) : result string :=
  match v with
  | VStr s => Ok s
  | VBool true => Ok "true"
  | VBool false => Ok "false"
  | VNull => Ok "null"
  | VUndefined => Ok "undefined"
  | _ => toString rt v
  end.

#[export] Instance result_ret : MRet result := λ A a, Ok a.

#[export] Instance result_bind : MBind result := λ A B k r,
  match r with
  | Ok a => k a
  | Err e => Err e
  end.

(** [x.length > 0] for a value of a request body. *)
Definition length_positive (rt : Runtime) (x : value) : bool :=
  match x with
  | VStr s => negb (String.eqb s "")
  | VArr xs => negb (bool_decide (xs = []))
  | VObj o =>
      match o !! "length" with
      | None | Some VUndefined | Some VNull => false
      | Some (VNum n) => 0 <? n
      | Some (VBool b) => b
      | Some v => positive rt v
      end
  | _ => false
  end.

(** [...x] in an argument list: arrays and strings are iterable. *)
Definition spread (x : value) : result (list value) :=
  match x with
  | VArr xs => Ok xs
  | VStr s => Ok (map (λ c, VStr (String c EmptyString)) (list_ascii_of_string s))
  | _ => Err "Spread syntax requires ...iterable[Symbol.iterator] to be a function"
  end.

(** [v[k]] for a name [k] that no built-in prototype defines: reading
    a property of [undefined] or [null] throws. *)
Definition js_get (v : value) (k : string) : result value :=
  match v with
  | VUndefined =>
      Err ("Cannot read properties of undefined (reading '" +:+ k +:+ "')")
  | VNull => Err ("Cannot read properties of null (reading '" +:+ k +:+ "')")
  | VObj o => Ok (prop o k)
  | _ => Ok VUndefined
  end.

(** [v[0]] *)
Definition js_first (v : value) : result value :=
  match v with
  | VArr (x :: _) => Ok x
  | VStr (String c _) => Ok (VStr (String c EmptyString))
  | v => js_get v "0"
  end.

Definition nl : string := String (ascii_of_nat 10) EmptyString.

(** The system prompt up to the student context. *)
Definition prompt_head : list string :=
  [ "You are the WSG AI Recruitment Expert, a knowledgeable and supportive advisor for students pursuing careers in finance and consulting. You have deep expertise in:";
    "";
    "- Investment banking (IBD) recruiting, technicals, and interviews";
    "- Management consulting recruiting and case interviews";
    "- Private equity and venture capital";
    "- Sales & trading and research";
    "- Corporate finance and FP&A";
    "";
    "Your role is to:";
    "1. Give clear, constructive feedback that helps students improve";
    "2. Push students to develop their own interview skills rather than just giving answers";
    "3. Use the Socratic method when appropriate - ask guiding questions";
    "4. Be encouraging but honest about areas for improvement";
    "5. Provide specific, actionable advice";
    "" ].

(** The lines of the student context: label and property. *)
Definition context_fields : list (string * string) :=
  [ ("Name", "name");
    ("University", "university");
    ("Graduation Year", "gradYear");
    ("Major", "major");
    ("Industry Interest", "industryInterest");
    ("Dream Company", "dreamCompany");
    ("Career Goals", "goals") ].

(** The system prompt after the student context. *)
Definition prompt_tail : list string :=
  [ "Guidelines:";
    "- Keep responses concise but thorough (aim for 2-4 paragraphs unless more detail is needed)";
    "- Use bullet points and structure for complex topics";
    "- When doing mock interviews or cases, simulate realistic scenarios";
    "- If a student asks you to solve a case or answer a technical question, first ask them to try, then provide feedback";
    "- Be warm and personable, but professional";
    "- Reference the student's specific situation and goals when relevant" ].

(** [`- ${label}: ${studentContext[key] || 'Unknown'}`] and a newline *)
Definition context_line (rt : Runtime) (studentContext : value)
    (field : string * string) : result string :=
  shown ← interpolate rt (js_or (member studentContext field.2) (VStr "Unknown"));
  mret ("- " +:+ field.1 +:+ ": " +:+ shown +:+ nl).

Fixpoint context_lines (rt : Runtime) (studentContext : value)
    (fields : list (string * string)) : result string :=
  match fields with
  | [] => Ok EmptyString
  | field :: fields =>
      line ← context_line rt studentContext field;
      rest ← context_lines rt studentContext fields;
      mret (line +:+ rest)
  end.

(** The system prompt with the student context, when there is one. *)
Definition systemPrompt (rt : Runtime) (studentContext : value) : result string :=
  context ← (if truthy studentContext then
               lines ← context_lines rt studentContext context_fields;
               mret (nl +:+ "STUDENT CONTEXT (use this to personalize your advice):"
                        +:+ nl +:+ lines)
             else Ok EmptyString);
  mret (String.concat nl prompt_head +:+ nl +:+ context +:+ nl +:+ nl
          +:+ String.concat nl prompt_tail).

(** The argument of [anthropic.messages.create]. *)
Record ChatRequest : Type := mkChatRequest {
  model : string;
  max_tokens : Z;
  system : string;
  messages : list value
}.

(** [response.content[0].text] *)
Definition first_text (response : value) : result value :=
  content ← js_get response "content";
  first ← js_first content;
  js_get first "text".

(** POST /api/chat. [anthropic] is [None] when no [ANTHROPIC_API_KEY]
    is configured. *)
Definition chat (rt : Runtime) (anthropic : option (ChatRequest → result value))
    (body : gmap string value) : Response :=
  match anthropic with
  | None =>
      error 503 "AI service not configured. Please add ANTHROPIC_API_KEY to .env"
  | Some create =>
      let message := prop body "message" in
      let studentContext := prop body "studentContext" in
      let conversationHistory := prop body "conversationHistory" in
      if negb (truthy message) then error 400 "Message is required"
      else
        match
          (systemPrompt ← systemPrompt rt studentContext;
           history ← (if truthy conversationHistory
                         && length_positive rt conversationHistory
                      then spread conversationHistory
                      else Ok []);
           let messages :=
             history ++ [VObj {[ "role" := VStr "user"; "content" := message ]}] in
           response ← create (mkChatRequest "claude-sonnet-4-20250514" 1024
                                systemPrompt messages);
           assistantMessage ← first_text response;
           mret (json {[ "success" := VBool true;
                         "message" := assistantMessage ]}))
        with
        | Ok response => response
        | Err e => failure "Failed to get AI response" e
        end
  end.

(** ** The reference store as a directory, and more sample data *)

Module MemDirectory.

(** The active mentors, in the order of the table (kept in name
    order). *)
Definition is_active (r : record) : bool :=
  match get r "Mentor Active Status" with
  | VStr s => String.eqb s "Active"
  | _ => false
  end.

Definition mem_select_all (b : MemStore.t) (name formula field direction : string)
    : result (list record) :=
  Ok (List.filter is_active (MemStore.table b name)).

#[global] Instance listing : RecordListing MemStore.t :=
  {| select_all := mem_select_all |}.

End MemDirectory.

Module SampleExtra.

Import MemStore Sample.

Definition ana : record :=
  mkRecord "recAna"
    {[ "Name" := VStr "Ana Ruiz";
       "Mentor Active Status" := VStr "Active";
       "Personal Email" := VStr "ana@home.example";
       "AI Mentor Intro" := VObj {[ "state" := VStr "generated";
                                    "value" := VStr "Ana covers consulting." ]} ]}.

Definition ben : record :=
  mkRecord "recBen"
    {[ "Name" := VStr "Ben Okoro";
       "Mentor Active Status" := VStr "Active";
       "Mentor Intro" := VStr "Ben covers banking." ]}.

Definition cy : record :=
  mkRecord "recCy" {[ "Name" := VStr "Cy Young";
                      "Mentor Active Status" := VStr "Inactive" ]}.

Definition directory : t := mk [jane; omar] [ana; cy; ben] [].

Definition wd : World t := mkWorld ∅ directory [].

(** A student whose meetings column was made a text column. *)
Definition zoe : record :=
  mkRecord "recZoe"
    {[ "Student's Email" := VStr "zoe@example.com";
       "Student-Mentor Meetings" := VStr "recM1" ]}.

Definition wz : World t := mkWorld ∅ (mk [zoe] [] []) [].

(** A mailer that always rejects, and one that always accepts. *)
Definition send_down (m : mail) : result unit := Err "mailer down".
Definition send_up (m : mail) : result unit := Ok tt.

Definition cfg_mail_down : Config :=
  mkConfig None None (Some "https://portal.example") "3000" None (Some send_down).

Definition cfg_mail_up : Config :=
  mkConfig None None (Some "https://portal.example") "3000" None (Some send_up).

(** A store whose queries fail. *)
Definition broken : Type := unit.

#[global] Instance broken_store : RecordStore broken :=
  {| select := λ _ _ _, Err "ECONNRESET";
     find := λ _ _ _, Err "ECONNRESET";
     update := λ b _ _ _, (Err "ECONNRESET", b) |}.

#[global] Instance broken_listing : RecordListing broken :=
  {| select_all := λ _ _ _ _ _, Err "ECONNRESET" |}.

(** A runtime for the values the samples do not use, and a chat
    client that answers with one text block echoing the number of
    messages it was sent. *)
Definition rt : Runtime := mkRuntime (λ _, Ok "[object Object]") (λ _, false).

Definition reply (text : string) : value :=
  VObj {[ "content" := VArr [VObj {[ "type" := VStr "text";
                                     "text" := VStr text ]}] ]}.

Definition client (request : ChatRequest) : result value :=
  Ok (reply (if bool_decide (length (messages request) = 3%nat)
             then "three messages" else "other")).

Definition client_down (request : ChatRequest) : result value := Err "overloaded".

Definition client_empty (request : ChatRequest) : result value :=
  Ok (VObj {[ "content" := VArr [] ]}).

Definition turn (role content : string) : value :=
  VObj {[ "role" := VStr role; "content" := VStr content ]}.

Definition chat_body : gmap string value :=
  {[ "message" := VStr "How do I prepare?";
     "conversationHistory" := VArr [turn "user" "Hi"; turn "assistant" "Hello"] ]}.

(** A meeting with two attending mentors, the second unknown. *)
Definition panel : t :=
  mk [] [mia] [meeting "recM9" [VStr "recMia"; VStr "recGone"]].

(** Ana's record without her private column. *)
Definition ana_public : record :=
  mkRecord "recAna"
    {[ "Name" := VStr "Ana Ruiz";
       "Mentor Active Status" := VStr "Active";
       "AI Mentor Intro" := VObj {[ "state" := VStr "generated";
                                    "value" := VStr "Ana covers consulting." ]} ]}.

(** A failing store with one outstanding token. *)
Definition wb : World broken :=
  mkWorld {[ "tok-1" := mkTokenData "jane@example.com" 5000 ]} tt [].

(** Request bodies. *)
Definition nobody_login : gmap string value :=
  {[ "email" := VStr " Nobody@Example.com" ]}.

Definition tok2 : gmap string value := {[ "token" := VStr "tok-2" ]}.

End SampleExtra.

(** ** Vocabulary of the properties *)

(** The session a response carries, if any. *)
Definition session_expiresAt (r : Response) : option Z :=
  match body r !! "session" with
  | Some (VObj session) =>
      match session !! "expiresAt" with
      | Some (VNum n) => Some n
      | _ => None
      end
  | _ => None
  end.

(** The instant at which a request mints its session. *)
Definition mint_time (r : request) : option Z :=
  match r with
  | Verify _ now' _ _ => Some now'
  | DevLogin now _ _ => Some now
  | _ => None
  end.

Ltac unfold_handler :=
  unfold handler, mbind, M_bind, mret, M_ret, lift,
    tokens_get, tokens_set, tokens_delete, students_select, students_update,
    send_mail, hydrate in *.

(** A link column of a record is absent or holds an array of ids. *)
Definition link_column (r : record) (column : string) : Prop :=
  fields r !! column = None ∨ ∃ ids, fields r !! column = Some (VArr ids).

(** The first id of a link column, when there is one. *)
Definition first_link (r : record) (column : string) : option value :=
  match fields r !! column with
  | Some (VArr (i :: _)) => Some i
  | _ => None
  end.

(** A record of the Students table: its three link columns are link
    columns, and no column bears the name of a field the hydrator
    derives. *)
Definition student_record (r : record) : Prop :=
  link_column r "Recruitment Manager"
  ∧ link_column r "Lead Mentor"
  ∧ link_column r "Student-Mentor Meetings"
  ∧ fields r !! "recruitmentManager" = None
  ∧ fields r !! "leadMentor" = None.

(** The meetings a sequence of ids resolves to: the meeting objects of
    the ids the store finds, in the order of the ids. *)
Definition resolved_meetings {Base} `{RecordStore Base} (st : Base)
    (ids : list value) : list value :=
  omap (λ i, match find st "Student-Mentor Meetings" i with
             | Ok _ => Some (getMeetingById st i)
             | Err _ => None
             end) ids.

(** The value the update loop keeps for a field of [updates]. *)
Definition kept (updates : value) (field : string) : option value :=
  if has_property updates field
     && negb (is_null (member updates field))
     && negb (is_undefined (member updates field))
  then Some (member updates field)
  else None.

(** The store patches: a column the patch does not mention has, in the
    record [update] returns, the cell it had in the selected record. *)
Definition patch_semantics {Base} `{RecordStore Base} (st : Base) : Prop :=
  ∀ formula s rs patch r b,
    select st "Students" formula = Ok (s :: rs) →
    update st "Students" (id s) patch = (Ok r, b) →
    ∀ k, patch !! k = None → fields r !! k = fields s !! k.

(** The store applies patches: a column the patch sets has, in the
    record [update] returns, the value of the patch. *)
Definition patch_applies {Base} `{RecordStore Base} (st : Base) : Prop :=
  ∀ recordId patch r b,
    update st "Students" recordId patch = (Ok r, b) →
    ∀ k v, patch !! k = Some v → fields r !! k = Some v.

(** The student object of a successful update response. *)
Definition returned_student (r : Response) : option (gmap string value) :=
  match body r !! "student" with
  | Some (VObj student) => Some student
  | _ => None
  end.

(** * Properties *)

Section AuthFacts.

Context {Base : Type} `{RecordStore Base}.
Variable cfg : Config.

Lemma session_reply_expiresAt token t student :
  session_expiresAt (json (session_reply token t student)) = Some t.
Proof. reflexivity. Qed.

(** What [verify] does, branch by branch. *)
Lemma verify_unfold now now' uuid body (w : World Base) :
  verify now now' uuid body w =
    match prop body "token" with
    | VStr t =>
        if String.eqb t "" then (error 400 "Token is required", w)
        else
          match magicLinkTokens w !! t with
          | None => (error 401 "Invalid or expired link", w)
          | Some td =>
              if now >? expiresAt td then
                (error 401 "Link has expired. Please request a new one.",
                 mkWorld (delete t (magicLinkTokens w)) (base w)
                   (trace w ++ [TokenDelete t]))
              else
                let w' := mkWorld (delete t (magicLinkTokens w)) (base w)
                            ((trace w ++ [TokenDelete t])
                               ++ [StudentsSelect (byEmail (email td))]) in
                match select (base w) "Students" (byEmail (email td)) with
                | Ok [] => (error 404 "Student not found", w')
                | Ok (student :: _) =>
                    (json (session_reply uuid (now' + SESSION_DURATION_MS) student), w')
                | Err e => (failure "Verification failed" e, w')
                end
          end
    | v => if truthy v then (error 401 "Invalid or expired link", w)
           else (error 400 "Token is required", w)
    end.
Proof.
  unfold verify. unfold_handler.
  destruct (prop body "token") as [| |b|n|t|xs|o]; simpl; try reflexivity.
  - by destruct b.
  - by destruct (n =? 0).
  - destruct (String.eqb t ""); simpl; [reflexivity|].
    destruct (magicLinkTokens w !! t) as [td|]; simpl; [|reflexivity].
    destruct (now >? expiresAt td); simpl; [reflexivity|].
    destruct (select (base w) "Students" (byEmail (email td))) as [[|s rs]|e];
      reflexivity.
Qed.

(** What [dev_login] does, branch by branch. *)
Lemma dev_login_unfold now uuid body (w : World Base) :
  dev_login cfg now uuid body w =
    if bool_decide (DEV_MODE cfg = Some "true") then
      match normalize (js_or (prop body "email")
                         (VStr (env_or (DEV_TEST_EMAIL cfg) "test@example.com"))) with
      | Ok normalizedEmail =>
          let w' := mkWorld (magicLinkTokens w) (base w)
                      (trace w ++ [StudentsSelect (byEmail normalizedEmail)]) in
          match select (base w) "Students" (byEmail normalizedEmail) with
          | Ok [] =>
              (error 404 ("No student found with email: " +:+ normalizedEmail), w')
          | Ok (student :: _) =>
              (json (session_reply uuid (now + SESSION_DURATION_MS) student), w')
          | Err e => (failure "Dev login failed" e, w')
          end
      | Err e => (failure "Dev login failed" e, w)
      end
    else (error 403 "Dev login not available in production", w).
Proof.
  unfold dev_login. unfold_handler.
  destruct (bool_decide (DEV_MODE cfg = Some "true")); simpl; [|reflexivity].
  destruct (normalize _) as [e|m]; simpl; [|reflexivity].
  destruct (select (base w) "Students" (byEmail e)) as [[|s rs]|m]; reflexivity.
Qed.

End AuthFacts.

Section TokenFacts.

Context {Base : Type} `{RecordStore Base}.
Variable cfg : Config.

(** A magic-link request leaves the token map alone or binds its
    identifier to the normalized email with a 15-minute expiry; a
    successful one does the latter. *)
Lemma magic_link_tokens now uuid body (w : World Base) :
  let out := magic_link cfg now uuid body w in
  (magicLinkTokens out.2 = magicLinkTokens w ∧ status out.1 ≠ 200)
  ∨ ∃ e, normalize (prop body "email") = Ok e
         ∧ magicLinkTokens out.2
           = <[ uuid := mkTokenData e (now + 15 * 60 * 1000) ]> (magicLinkTokens w).
Proof.
  unfold magic_link. unfold_handler.
  destruct (truthy (prop body "email")); simpl; [|by left].
  destruct (normalize (prop body "email")) as [e|m]; simpl; [|by left].
  destruct (select (base w) "Students" (byEmail e)) as [[|s rs]|m]; simpl;
    [by left| |by left].
  destruct (firstName_of s) as [fn|m]; simpl; [|by left].
  right. exists e. split; [done|].
  destruct (resend cfg) as [send|]; simpl; [|done].
  by destruct (send _).
Qed.

Lemma dev_login_tokens now uuid body (w : World Base) :
  magicLinkTokens (dev_login cfg now uuid body w).2 = magicLinkTokens w.
Proof.
  rewrite dev_login_unfold.
  repeat case_match; reflexivity.
Qed.

Lemma verify_tokens now now' uuid body (w : World Base) :
  let after := magicLinkTokens (verify now now' uuid body w).2 in
  after = magicLinkTokens w
  ∨ ∃ t, prop body "token" = VStr t ∧ after = delete t (magicLinkTokens w).
Proof.
  rewrite verify_unfold.
  destruct (prop body "token") as [| |b|n|t|xs|o]; simpl;
    try (left; repeat case_match; reflexivity).
  repeat case_match; simpl; eauto.
Qed.

Lemma get_student_tokens order e (w : World Base) :
  magicLinkTokens (get_student order e w).2 = magicLinkTokens w.
Proof.
  unfold get_student, getStudentByEmail. unfold_handler.
  destruct (select (base w) "Students" (byEmail e)) as [[|s rs]|m]; simpl;
    try reflexivity.
  by destruct (hydrateStudent (base w) order s).
Qed.

Lemma update_student_tokens order body (w : World Base) :
  magicLinkTokens (update_student order body w).2 = magicLinkTokens w.
Proof.
  unfold update_student. unfold_handler.
  destruct (truthy (prop body "email")); simpl; [|reflexivity].
  destruct (negb (truthy (prop body "updates")) || _); simpl; [reflexivity|].
  destruct (normalize (prop body "email")) as [e|m]; simpl; [|reflexivity].
  destruct (select (base w) "Students" (byEmail e)) as [[|s rs]|m]; simpl;
    try reflexivity.
  destruct (update (base w) "Students" (id s) _) as [[r|m] b]; simpl;
    [|reflexivity].
  by destruct (hydrateStudent b order r).
Qed.

(** Whatever its outcome, a verify request leaves the token it
    presented out of the map. *)
Lemma verify_consumes now now' uuid body t (w : World Base) :
  prop body "token" = VStr t → t ≠ "" →
  magicLinkTokens (verify now now' uuid body w).2 !! t = None.
Proof.
  intros Htok Hne. apply String.eqb_neq in Hne.
  rewrite verify_unfold, Htok, Hne.
  destruct (magicLinkTokens w !! t) as [td|] eqn:Ht; simpl; [|done].
  destruct (now >? expiresAt td); simpl; [apply lookup_delete_eq|].
  destruct (select _ _ _) as [[|s ss]|m]; simpl; apply lookup_delete_eq.
Qed.

(** A token that is not in the map stays out of it as long as no
    magic link is issued under it. *)
Lemma serve_absent t r (w : World Base) :
  magicLinkTokens w !! t = None → ¬ issues t r →
  magicLinkTokens (serve cfg r w).2 !! t = None.
Proof.
  intros Hnone Hr. destruct r as [now uuid b|now uuid b|now now' uuid b|o e|o b]; simpl.
  - destruct (magic_link_tokens now uuid b w) as [[-> _]|(e & _ & ->)]; [done|].
    rewrite lookup_insert_ne; [done|]. intros ->. by apply Hr.
  - by rewrite dev_login_tokens.
  - destruct (verify_tokens now now' uuid b w) as [->|(t' & _ & ->)]; [done|].
    destruct (decide (t' = t)) as [->|Hne].
    + apply lookup_delete_eq.
    + by rewrite lookup_delete_ne.
  - by rewrite get_student_tokens.
  - by rewrite update_student_tokens.
Qed.

Lemma run_absent t rs (w : World Base) :
  magicLinkTokens w !! t = None → Forall (λ r, ¬ issues t r) rs →
  magicLinkTokens (run cfg rs w) !! t = None.
Proof.
  intros Hnone Hrs. revert w Hnone.
  induction Hrs as [|r rs Hr _ IH]; intros w Hnone; [done|].
  simpl. apply IH. by apply serve_absent.
Qed.

(** A binding of the map stays as it is as long as its token is
    neither redeemed nor issued again. *)
Lemma serve_bound t td r (w : World Base) :
  magicLinkTokens w !! t = Some td → ¬ issues t r → ¬ redeems t r →
  magicLinkTokens (serve cfg r w).2 !! t = Some td.
Proof.
  intros Hsome Hi Hr.
  destruct r as [now uuid b|now uuid b|now now' uuid b|o e|o b]; simpl.
  - destruct (magic_link_tokens now uuid b w) as [[-> _]|(e & _ & ->)]; [done|].
    rewrite lookup_insert_ne; [done|]. intros ->. by apply Hi.
  - by rewrite dev_login_tokens.
  - destruct (verify_tokens now now' uuid b w) as [->|(t' & Ht' & ->)]; [done|].
    rewrite lookup_delete_ne; [done|]. intros ->. apply Hr. simpl.
    unfold prop in Ht'. destruct (b !! "token") as [v|]; simpl in Ht'; by subst.
  - by rewrite get_student_tokens.
  - by rewrite update_student_tokens.
Qed.

Lemma run_bound t td rs (w : World Base) :
  magicLinkTokens w !! t = Some td →
  Forall (λ r, ¬ issues t r ∧ ¬ redeems t r) rs →
  magicLinkTokens (run cfg rs w) !! t = Some td.
Proof.
  intros Hsome Hrs. revert w Hsome.
  induction Hrs as [|r rs [Hi Hr] _ IH]; intros w Hsome; [done|].
  simpl. apply IH. by apply serve_bound.
Qed.

End TokenFacts.

Section Authentication.

Context {Base : Type} `{RecordStore Base}.
Variable cfg : Config.

(** C1. A token is redeemed at most once: once a verify request
    presenting the token [t] has succeeded, a later verify request
    presenting [t] is answered 401 "Invalid or expired link", at
    whatever instant it arrives (inside the 15-minute window or not)
    and whatever requests were served in between, as long as no new
    magic link was issued under the same identifier. *)
Theorem redeem_at_most_once (w : World Base) t now now' uuid body
    rs now2 now2' uuid2 body2 :
  prop body "token" = VStr t →
  status (verify now now' uuid body w).1 = 200 →
  Forall (λ r, ¬ issues t r) rs →
  prop body2 "token" = VStr t →
  (verify now2 now2' uuid2 body2 (run cfg rs (verify now now' uuid body w).2)).1
  = error 401 "Invalid or expired link".
Proof.
  intros Htok Hok Hrs Htok2.
  assert (String.eqb t "" = false
          ∧ magicLinkTokens (verify now now' uuid body w).2 !! t = None)
    as [Hne Hgone].
  { revert Hok. rewrite verify_unfold, Htok.
    destruct (String.eqb t ""); simpl; [discriminate|].
    destruct (magicLinkTokens w !! t) as [td|]; simpl; [|discriminate].
    destruct (now >? expiresAt td); simpl; [discriminate|].
    destruct (select _ _ _) as [[|s ss]|m]; simpl; try discriminate.
    intros _. split; [done|]. apply lookup_delete_eq. }
  rewrite verify_unfold, Htok2, Hne.
  by rewrite (run_absent cfg t rs _ Hgone Hrs).
Qed.

(** C2. A magic link issued at [t0] is stored with expiry
    [t0 + 15 minutes]. While the token has been neither redeemed nor
    issued again, redeeming it at an instant [t] later than that
    expiry is answered 401, and redeeming it at an instant [t] up to
    that expiry succeeds with a session whenever the bound email still
    selects a student record. *)
Theorem token_expiry (w : World Base) t0 uuid body rs :
  status (magic_link cfg t0 uuid body w).1 = 200 →
  uuid ≠ "" →
  Forall (λ r, ¬ issues uuid r ∧ ¬ redeems uuid r) rs →
  ∃ e,
    magicLinkTokens (magic_link cfg t0 uuid body w).2 !! uuid
    = Some (mkTokenData e (t0 + 15 * 60 * 1000))
    ∧ ∀ t now' u body',
        let w2 := run cfg rs (magic_link cfg t0 uuid body w).2 in
        prop body' "token" = VStr uuid →
        (t > t0 + 15 * 60 * 1000 →
         (verify t now' u body' w2).1
         = error 401 "Link has expired. Please request a new one.")
        ∧ (t ≤ t0 + 15 * 60 * 1000 →
           ∀ s ss, select (base w2) "Students" (byEmail e) = Ok (s :: ss) →
           (verify t now' u body' w2).1
           = json (session_reply u (now' + SESSION_DURATION_MS) s)).
Proof.
  intros Hok Hne Hrs.
  destruct (magic_link_tokens cfg t0 uuid body w) as [[_ Hbad]|(e & _ & Hset)];
    [done|].
  exists e.
  assert (magicLinkTokens (magic_link cfg t0 uuid body w).2 !! uuid
          = Some (mkTokenData e (t0 + 15 * 60 * 1000))) as Hbound.
  { rewrite Hset. apply lookup_insert_eq. }
  split; [done|]. intros t now' u body' w2 Htok. subst w2.
  assert (String.eqb uuid "" = false) as Hne'.
  { by apply String.eqb_neq. }
  pose proof (run_bound cfg uuid _ rs _ Hbound Hrs) as Hw2.
  split.
  - intros Hlate. rewrite verify_unfold, Htok, Hne', Hw2. simpl.
    destruct (Z.gtb_spec t (t0 + 15 * 60 * 1000)); [done|lia].
  - intros Hearly s ss Hsel. rewrite verify_unfold, Htok, Hne', Hw2. simpl.
    destruct (Z.gtb_spec t (t0 + 15 * 60 * 1000)); [lia|].
    by rewrite Hsel.
Qed.

(** C6. With the development flag not set to "true", and in
    particular when it is unset, a dev-login request is answered 403
    whatever its payload: nothing else happens, the token map, the
    record store and the trace of store calls are as before (no
    student lookup), and the response carries no session. *)
Theorem dev_login_forbidden (w : World Base) now uuid body :
  DEV_MODE cfg ≠ Some "true" →
  dev_login cfg now uuid body w
  = (error 403 "Dev login not available in production", w)
  ∧ session_expiresAt (dev_login cfg now uuid body w).1 = None.
Proof.
  intros Hflag. rewrite dev_login_unfold.
  by rewrite bool_decide_eq_false_2.
Qed.

(** C8. Redeeming a stored, unexpired token whose email selects no
    student record is answered 404 "Student not found", which is not
    the 401 of an invalid or expired token. The token is deleted from
    the token map before the Students table is queried, so it is
    consumed: presenting it again is answered 401. *)
Theorem redeem_student_not_found (w : World Base) t td now now' uuid body :
  prop body "token" = VStr t →
  t ≠ "" →
  magicLinkTokens w !! t = Some td →
  now ≤ expiresAt td →
  select (base w) "Students" (byEmail (email td)) = Ok [] →
  let out := verify now now' uuid body w in
  out.1 = error 404 "Student not found"
  ∧ status out.1 ≠ 401
  ∧ magicLinkTokens out.2 = delete t (magicLinkTokens w)
  ∧ trace out.2
    = trace w ++ [TokenDelete t; StudentsSelect (byEmail (email td))]
  ∧ ∀ now2 now2' uuid2,
      (verify now2 now2' uuid2 body out.2).1 = error 401 "Invalid or expired link".
Proof.
  intros Htok Hne Hsome Hlive Hsel out.
  assert (String.eqb t "" = false) as Hne' by by apply String.eqb_neq.
  assert (out = (error 404 "Student not found",
                 mkWorld (delete t (magicLinkTokens w)) (base w)
                   ((trace w ++ [TokenDelete t])
                      ++ [StudentsSelect (byEmail (email td))]))) as ->.
  { unfold out. rewrite verify_unfold, Htok, Hne', Hsome. simpl.
    destruct (Z.gtb_spec now (expiresAt td)); [lia|]. by rewrite Hsel. }
  simpl. split_and!; try done.
  - by rewrite <- app_assoc.
  - intros now2 now2' uuid2. rewrite verify_unfold, Htok, Hne'. simpl.
    by rewrite lookup_delete_eq.
Qed.

(** C9. A session minted at the instant [t], by a successful verify
    or by a successful dev login, expires at [t] plus the session
    duration, which is six months of thirty days, in milliseconds. *)
Theorem session_expires_in_six_months (w : World Base) r t :
  mint_time r = Some t →
  status (serve cfg r w).1 = 200 →
  session_expiresAt (serve cfg r w).1 = Some (t + SESSION_DURATION_MS)
  ∧ SESSION_DURATION_MS = 6 * (30 * (24 * 60 * 60 * 1000)).
Proof.
  intros Ht Hok. split; [|reflexivity].
  destruct r as [now uuid b|now uuid b|now now' uuid b|o e|o b];
    simpl in Ht; try discriminate; injection Ht as <-; simpl in *.
  - revert Hok. rewrite dev_login_unfold.
    repeat case_match; simpl; try discriminate; done.
  - revert Hok. rewrite verify_unfold.
    repeat case_match; simpl; try discriminate; done.
Qed.

End Authentication.

(** ** Promise.all keeps the order of its input *)

Section PromiseAll.

Implicit Types (pending : list (nat * value)) (values promises : list value).

Lemma elem_of_delete_split {A} (l : list A) k x y :
  l !! k = Some y → x ∈ l → x = y ∨ x ∈ delete k l.
Proof.
  intros Hk Hx. rewrite <- (take_drop_middle l k y Hk) in Hx.
  rewrite delete_take_drop.
  rewrite elem_of_app, elem_of_cons in Hx. rewrite elem_of_app.
  destruct Hx as [Hx|[Hx|Hx]]; auto.
Qed.

Lemma elem_of_delete_weaken {A} (l : list A) k x :
  x ∈ delete k l → x ∈ l.
Proof. intros Hx. eapply elem_of_sublist; [exact Hx|apply sublist_delete]. Qed.

(** Slots already written hold the value of their promise, and the
    promises still pending carry their own index: when none is left
    the slots are the promised values, in the order of the input. *)
Lemma settle_in_order promises fuel : ∀ order pending values,
  length values = length promises →
  (∀ i v, (i, v) ∈ pending → promises !! i = Some v) →
  (∀ i, (∀ v, (i, v) ∉ pending) → values !! i = promises !! i) →
  (length pending ≤ fuel)%nat →
  settle fuel order pending values = promises.
Proof.
  induction fuel as [|fuel IH]; intros order pending values Hlen Hpend Hdone Hfuel.
  - destruct pending; [|simpl in Hfuel; lia].
    simpl. apply list_eq. intros i. apply Hdone. intros v Hin. inversion Hin.
  - simpl. destruct pending as [|p pending'] eqn:Epend.
    { simpl. apply list_eq. intros i. apply Hdone. intros v Hin. inversion Hin. }
    rewrite <- Epend in *.
    set (k := (hd 0%nat order mod length pending)%nat).
    assert (k < length pending)%nat as Hk.
    { apply Nat.mod_upper_bound. rewrite Epend. simpl. lia. }
    destruct (lookup_lt_is_Some_2 pending k Hk) as [[i v] Hkv].
    rewrite Hkv. apply IH.
    + by rewrite length_insert.
    + intros i' v' Hin. apply Hpend. eapply elem_of_delete_weaken, Hin.
    + intros i' Hfree.
      assert (promises !! i = Some v) as Hiv.
      { apply Hpend. eapply list_elem_of_lookup_2, Hkv. }
      destruct (decide (i' = i)) as [->|Hne].
      * rewrite Hiv. apply list_lookup_insert_eq.
        rewrite Hlen. eapply lookup_lt_Some, Hiv.
      * rewrite list_lookup_insert_ne by done. apply Hdone.
        intros v' Hin.
        destruct (elem_of_delete_split pending k _ _ Hkv Hin) as [[= -> ->]|Hin'];
          [done|]. by apply (Hfree v').
    + rewrite length_delete by eauto. lia.
Qed.

Lemma Promise_all_in_order order promises :
  Promise_all order promises = promises.
Proof.
  unfold Promise_all. apply settle_in_order.
  - apply length_replicate.
  - intros i v Hin. apply elem_of_lookup_imap in Hin as (j & w & [= -> ->] & Hj).
    done.
  - intros i Hfree. destruct (promises !! i) as [v|] eqn:Hi.
    + exfalso. apply (Hfree v). apply elem_of_lookup_imap. eauto.
    + apply lookup_ge_None. rewrite length_replicate. by apply lookup_ge_None.
  - by rewrite length_imap.
Qed.

End PromiseAll.

(** ** Hydration degrades, and keeps the order of the meeting ids *)

Section HydrationFacts.

Context {Base : Type} `{RecordStore Base}.
Implicit Types (st : Base) (r : record) (student : gmap string value).

Lemma getMentorById_found st i m :
  find st "Mentors" i = Ok m → ∃ o, getMentorById st i = VObj o.
Proof. intros Hm. unfold getMentorById. rewrite Hm. eauto. Qed.

Lemma getMentorById_missing st i e :
  find st "Mentors" i = Err e → getMentorById st i = VNull.
Proof. intros Hm. unfold getMentorById. by rewrite Hm. Qed.

Lemma getMeetingById_found st i m :
  find st "Student-Mentor Meetings" i = Ok m → ∃ o, getMeetingById st i = VObj o.
Proof.
  intros Hm. unfold getMeetingById. rewrite Hm. simpl.
  repeat case_match; eauto.
Qed.

Lemma getMeetingById_missing st i e :
  find st "Student-Mentor Meetings" i = Err e → getMeetingById st i = VNull.
Proof. intros Hm. unfold getMeetingById. by rewrite Hm. Qed.

(** Dropping the nulls of the looked-up meetings leaves the resolved
    meetings. *)
Lemma filter_meetings st ids :
  List.filter (λ m, negb (is_null m)) (map (getMeetingById st) ids)
  = resolved_meetings st ids.
Proof.
  unfold resolved_meetings. induction ids as [|i ids IH]; [done|]. simpl.
  destruct (find st "Student-Mentor Meetings" i) as [m|e] eqn:Hi.
  - destruct (getMeetingById_found st i m Hi) as [o ->]. simpl. by rewrite IH.
  - rewrite (getMeetingById_missing st i e Hi). simpl. by rewrite IH.
Qed.

Lemma resolved_meetings_objects st ids :
  Forall (λ m, ∃ o, m = VObj o) (resolved_meetings st ids).
Proof.
  unfold resolved_meetings. induction ids as [|i ids IH]; simpl; [constructor|].
  destruct (find st "Student-Mentor Meetings" i) as [m|e] eqn:Hi; simpl; [|done].
  constructor; [|done]. by eapply getMeetingById_found.
Qed.

(** [resolved_meetings] walks the ids front to back: an id the store
    finds puts its meeting in front of those of the later ids, an id it
    does not find puts nothing. *)
Lemma resolved_meetings_found st i ids found :
  find st "Student-Mentor Meetings" i = Ok found →
  resolved_meetings st (i :: ids) = getMeetingById st i :: resolved_meetings st ids.
Proof. intros Hi. unfold resolved_meetings. simpl. by rewrite Hi. Qed.

Lemma resolved_meetings_missing st i ids e :
  find st "Student-Mentor Meetings" i = Err e →
  resolved_meetings st (i :: ids) = resolved_meetings st ids.
Proof. intros Hi. unfold resolved_meetings. simpl. by rewrite Hi. Qed.

Lemma resolved_meetings_app st ids1 ids2 :
  resolved_meetings st (ids1 ++ ids2)
  = resolved_meetings st ids1 ++ resolved_meetings st ids2.
Proof. apply omap_app. Qed.

Lemma elem_of_resolved_meetings st ids m :
  m ∈ resolved_meetings st ids ↔
  ∃ i, i ∈ ids
       ∧ (∃ found, find st "Student-Mentor Meetings" i = Ok found)
       ∧ m = getMeetingById st i.
Proof.
  unfold resolved_meetings. rewrite list_elem_of_omap. split.
  - intros (i & Hi & Hm). exists i. split; [done|].
    destruct (find st "Student-Mentor Meetings" i) as [found|e];
      [|discriminate].
    injection Hm as <-. eauto.
  - intros (i & Hi & [found Hf] & ->). exists i. split; [done|].
    by rewrite Hf.
Qed.

(** The object a record starts from: its cells, and its id unless a
    column is named [id]. *)
Lemma spread_lookup r k :
  k ≠ "id" → (fields r ∪ {[ "id" := VStr (id r) ]}) !! k = fields r !! k.
Proof.
  intros Hk. rewrite lookup_union, lookup_singleton_ne by done.
  by destruct (fields r !! k).
Qed.

Lemma hydrateMentor_other st column key student k :
  k ≠ key → hydrateMentor st column key student !! k = student !! k.
Proof.
  intros Hk. unfold hydrateMentor. repeat case_match; try done.
  by rewrite lookup_insert_ne.
Qed.

(** The derived mentor field is set exactly when the column has a
    first id and that id resolves. *)
Lemma hydrateMentor_key st column key student :
  hydrateMentor st column key student !! key
  = if has_elems (prop student column)
    then match find st "Mentors" (index0 (prop student column)) with
         | Ok _ => Some (getMentorById st (index0 (prop student column)))
         | Err _ => student !! key
         end
    else student !! key.
Proof.
  unfold hydrateMentor.
  destruct (has_elems (prop student column)); [|done].
  destruct (find st "Mentors" (index0 (prop student column))) as [m|e] eqn:Hm.
  - destruct (getMentorById_found st _ m Hm) as [o ->]. simpl.
    apply lookup_insert_eq.
  - by rewrite (getMentorById_missing st _ e Hm).
Qed.

Lemma first_link_None r column :
  link_column r column → first_link r column = None →
  has_elems (prop (fields r) column) = false.
Proof.
  unfold first_link, prop. intros [->|[ids ->]]; [done|].
  by destruct ids.
Qed.

Lemma first_link_Some r column i :
  first_link r column = Some i →
  has_elems (prop (fields r) column) = true
  ∧ index0 (prop (fields r) column) = i.
Proof.
  unfold first_link, prop.
  destruct (fields r !! column) as [[| | | | |[|j ids]|]|]; try discriminate.
  by intros [= ->].
Qed.

End HydrationFacts.

Section Hydration.

Context {Base : Type} `{RecordStore Base}.
Implicit Types (st : Base) (r : record).

(** The three derived fields of a hydrated student record. *)
Lemma hydrateStudent_fields st order r :
  student_record r →
  ∃ s,
    hydrateStudent st order r = Ok s
    ∧ s !! "recruitmentManager"
      = match first_link r "Recruitment Manager" with
        | Some i => match find st "Mentors" i with
                    | Ok _ => Some (getMentorById st i)
                    | Err _ => None
                    end
        | None => None
        end
    ∧ s !! "leadMentor"
      = match first_link r "Lead Mentor" with
        | Some i => match find st "Mentors" i with
                    | Ok _ => Some (getMentorById st i)
                    | Err _ => None
                    end
        | None => None
        end
    ∧ s !! "meetings"
      = Some (VArr match fields r !! "Student-Mentor Meetings" with
                   | Some (VArr ids) => resolved_meetings st ids
                   | _ => []
                   end).
Proof.
  intros (Hrm & Hlm & Hmeet & Hfree_rm & Hfree_lm).
  unfold hydrateStudent.
  set (s0 := fields r ∪ {[ "id" := VStr (id r) ]}).
  set (s1 := hydrateMentor st "Recruitment Manager" "recruitmentManager" s0).
  set (s2 := hydrateMentor st "Lead Mentor" "leadMentor" s1).
  assert (∀ k, k ≠ "id" → s0 !! k = fields r !! k) as Hs0.
  { intros k Hk. by apply spread_lookup. }
  assert (∀ k, k ≠ "id" → prop s0 k = prop (fields r) k) as Hp0.
  { intros k Hk. unfold prop. by rewrite Hs0. }
  assert (∀ k, k ≠ "recruitmentManager" → s1 !! k = s0 !! k) as Hs1.
  { intros k Hk. by apply hydrateMentor_other. }
  assert (∀ k, k ≠ "leadMentor" → s2 !! k = s1 !! k) as Hs2.
  { intros k Hk. by apply hydrateMentor_other. }
  assert (s2 !! "recruitmentManager"
          = match first_link r "Recruitment Manager" with
            | Some i => match find st "Mentors" i with
                        | Ok _ => Some (getMentorById st i)
                        | Err _ => None
                        end
            | None => None
            end) as Hkey_rm.
  { rewrite Hs2 by done. unfold s1. rewrite hydrateMentor_key, Hp0, Hs0 by done.
    destruct (first_link r "Recruitment Manager") as [i|] eqn:Hl.
    - destruct (first_link_Some r _ i Hl) as [-> ->].
      by destruct (find st "Mentors" i).
    - by rewrite (first_link_None r _ Hrm Hl). }
  assert (s2 !! "leadMentor"
          = match first_link r "Lead Mentor" with
            | Some i => match find st "Mentors" i with
                        | Ok _ => Some (getMentorById st i)
                        | Err _ => None
                        end
            | None => None
            end) as Hkey_lm.
  { unfold s2. rewrite hydrateMentor_key.
    assert (prop s1 "Lead Mentor" = prop (fields r) "Lead Mentor") as ->.
    { unfold prop. by rewrite Hs1, Hs0. }
    rewrite Hs1, Hs0 by done.
    destruct (first_link r "Lead Mentor") as [i|] eqn:Hl.
    - destruct (first_link_Some r _ i Hl) as [-> ->].
      by destruct (find st "Mentors" i).
    - by rewrite (first_link_None r _ Hlm Hl). }
  assert (prop s2 "Student-Mentor Meetings"
          = prop (fields r) "Student-Mentor Meetings") as ->.
  { unfold prop. by rewrite Hs2, Hs1, Hs0. }
  unfold prop.
  destruct Hmeet as [Hnone|[ids Hids]].
  - rewrite Hnone. simpl. eexists. split; [reflexivity|].
    rewrite !lookup_insert_ne by done. rewrite lookup_insert_eq. done.
  - rewrite Hids. simpl. destruct ids as [|i ids]; simpl.
    + eexists. split; [reflexivity|].
      rewrite !lookup_insert_ne by done. rewrite lookup_insert_eq. done.
    + eexists. split; [reflexivity|].
      rewrite !lookup_insert_ne by done. rewrite lookup_insert_eq.
      rewrite Promise_all_in_order.
      change (getMeetingById st i :: map (getMeetingById st) ids)
        with (map (getMeetingById st) (i :: ids)).
      by rewrite filter_meetings.
Qed.

(** C4. Hydrating a student record never throws, whatever the store
    answers to the link lookups. A record without linked mentors or
    meetings yields no [recruitmentManager], no [leadMentor] and an
    empty [meetings]; a linked mentor the store does not find leaves
    its field out, and the meetings are exactly the meeting objects
    of the ids the store finds: an id it does not find contributes no
    entry, neither an error nor a placeholder. The student fetch that
    selects the record answers with the hydrated student. *)
Theorem hydrate_never_fails st order r :
  student_record r →
  ∃ s ms,
    hydrateStudent st order r = Ok s
    ∧ s !! "meetings" = Some (VArr ms)
    ∧ Forall (λ m, ∃ o, m = VObj o) ms
    ∧ (first_link r "Recruitment Manager" = None → s !! "recruitmentManager" = None)
    ∧ (first_link r "Lead Mentor" = None → s !! "leadMentor" = None)
    ∧ (first_link r "Student-Mentor Meetings" = None → ms = [])
    ∧ (∀ i e, first_link r "Recruitment Manager" = Some i →
              find st "Mentors" i = Err e → s !! "recruitmentManager" = None)
    ∧ (∀ i e, first_link r "Lead Mentor" = Some i →
              find st "Mentors" i = Err e → s !! "leadMentor" = None)
    ∧ (∀ ids, fields r !! "Student-Mentor Meetings" = Some (VArr ids) →
              ms = resolved_meetings st ids
              ∧ ∀ m, m ∈ ms ↔
                     ∃ i, i ∈ ids
                          ∧ (∃ found, find st "Student-Mentor Meetings" i = Ok found)
                          ∧ m = getMeetingById st i)
    ∧ (∀ (w : World Base) e rs,
         base w = st → select st "Students" (byEmail e) = Ok (r :: rs) →
         (get_student order e w).1 = json s).
Proof.
  intros Hr. pose proof Hr as (_ & _ & Hmeet & _ & _).
  destruct (hydrateStudent_fields st order r Hr) as (s & Hs & Hrm & Hlm & Hms).
  exists s. eexists. split; [done|]. split; [exact Hms|].
  split_and!.
  - destruct (fields r !! "Student-Mentor Meetings") as [[]|];
      try constructor. apply resolved_meetings_objects.
  - intros Hl. by rewrite Hrm, Hl.
  - intros Hl. by rewrite Hlm, Hl.
  - unfold first_link. intros Hl.
    destruct Hmeet as [->|[ids Hids]]; [done|]. rewrite Hids in Hl |- *.
    by destruct ids.
  - intros i e Hl Hi. by rewrite Hrm, Hl, Hi.
  - intros i e Hl Hi. by rewrite Hlm, Hl, Hi.
  - intros ids ->. split; [done|]. apply elem_of_resolved_meetings.
  - intros w e rs <- Hsel. unfold get_student, getStudentByEmail. unfold_handler.
    rewrite Hsel. simpl. by rewrite Hs.
Qed.

(** C5. The [meetings] of a hydrated student are the resolved meeting
    objects in the order of the ids of its [Student-Mentor Meetings]
    column, the ids the store does not find being left out, and this
    for every order in which the concurrent lookups complete. *)
Theorem hydrate_meetings_in_order st order r ids :
  fields r !! "Student-Mentor Meetings" = Some (VArr ids) →
  ids ≠ [] →
  ∃ s,
    hydrateStudent st order r = Ok s
    ∧ s !! "meetings" = Some (VArr (resolved_meetings st ids))
    ∧ ∀ order', hydrateStudent st order' r = Ok s.
Proof.
  intros Hids Hne. unfold hydrateStudent.
  set (s0 := fields r ∪ {[ "id" := VStr (id r) ]}).
  set (s1 := hydrateMentor st "Recruitment Manager" "recruitmentManager" s0).
  set (s2 := hydrateMentor st "Lead Mentor" "leadMentor" s1).
  assert (prop s2 "Student-Mentor Meetings" = VArr ids) as ->.
  { unfold prop, s2, s1, s0.
    by rewrite !hydrateMentor_other, spread_lookup, Hids. }
  destruct ids as [|i ids]; [done|]. simpl.
  eexists. split; [reflexivity|]. split.
  - rewrite lookup_insert_eq, Promise_all_in_order.
    change (getMeetingById st i :: map (getMeetingById st) ids)
      with (map (getMeetingById st) (i :: ids)).
    by rewrite filter_meetings.
  - intros order'. by rewrite !Promise_all_in_order.
Qed.

End Hydration.

(** ** The profile update writes allow-listed fields only *)

Section UpdateFacts.

Context {Base : Type} `{RecordStore Base}.

Lemma include_field_lookup updates fs : ∀ (acc : gmap string value) k,
  foldl (include_field updates) acc fs !! k
  = match kept updates k with
    | Some v => if bool_decide (k ∈ fs) then Some v else acc !! k
    | None => acc !! k
    end.
Proof.
  induction fs as [|f fs IH]; intros acc k; simpl.
  - by destruct (kept updates k).
  - rewrite IH. unfold kept, include_field.
    destruct (decide (k = f)) as [->|Hne].
    + rewrite (bool_decide_eq_true_2 (f ∈ f :: fs)) by by left.
      destruct (has_property updates f); simpl; [|done].
      destruct (negb (is_null (member updates f))
                && negb (is_undefined (member updates f))); simpl; [|done].
      rewrite lookup_insert_eq. by destruct (bool_decide (f ∈ fs)).
    + assert (bool_decide (k ∈ f :: fs) = bool_decide (k ∈ fs)) as ->.
      { apply bool_decide_ext. rewrite elem_of_cons.
        split; [intros [->|?]; done|auto]. }
      assert ((if has_property updates f
               then if negb (is_null (member updates f))
                       && negb (is_undefined (member updates f))
                    then <[ f := member updates f ]> acc else acc
               else acc) !! k = acc !! k) as ->.
      { repeat case_match; try done. by rewrite lookup_insert_ne. }
      done.
Qed.

(** The patch holds the kept values of the allow-listed fields and
    nothing else. *)
Lemma fieldsToUpdate_lookup updates k :
  fieldsToUpdate updates !! k
  = if bool_decide (k ∈ allowedFields) then kept updates k else None.
Proof.
  unfold fieldsToUpdate. rewrite include_field_lookup, lookup_empty.
  destruct (kept updates k); by destruct (bool_decide (k ∈ allowedFields)).
Qed.

(** Two update objects that agree on the allow-listed fields yield
    the same patch. *)
Lemma fieldsToUpdate_agree (o o' : gmap string value) :
  (∀ k, k ∈ allowedFields → o' !! k = o !! k) →
  fieldsToUpdate (VObj o') = fieldsToUpdate (VObj o).
Proof.
  intros Hagree. apply map_eq. intros k. rewrite !fieldsToUpdate_lookup.
  destruct (bool_decide_reflect (k ∈ allowedFields)) as [Hk|]; [|done].
  unfold kept, has_property, member, prop. by rewrite (Hagree k Hk).
Qed.

(** What [update_student] does, branch by branch. *)
Lemma update_student_unfold order body (w : World Base) :
  update_student order body w =
    let updates := prop body "updates" in
    if negb (truthy (prop body "email")) then (error 400 "Email is required", w)
    else if negb (truthy updates) || negb (typeof_object updates)
    then (error 400 "Updates object is required", w)
    else
      match normalize (prop body "email") with
      | Err e => (failure "Failed to update student profile" e, w)
      | Ok normalizedEmail =>
          let t1 := trace w ++ [StudentsSelect (byEmail normalizedEmail)] in
          match select (base w) "Students" (byEmail normalizedEmail) with
          | Err e => (failure "Failed to update student profile" e,
                      mkWorld (magicLinkTokens w) (base w) t1)
          | Ok [] => (error 404 "Student not found",
                      mkWorld (magicLinkTokens w) (base w) t1)
          | Ok (studentRecord :: _) =>
              let patch := fieldsToUpdate updates in
              let t2 := t1 ++ [StudentsUpdate (id studentRecord) patch] in
              match update (base w) "Students" (id studentRecord) patch with
              | (Err e, b) =>
                  (failure "Failed to update student profile" e,
                   mkWorld (magicLinkTokens w) b t2)
              | (Ok updatedRecord, b) =>
                  match hydrateStudent b order updatedRecord with
                  | Ok updatedStudent =>
                      (json {[ "success" := VBool true;
                               "student" := VObj updatedStudent ]},
                       mkWorld (magicLinkTokens w) b t2)
                  | Err e =>
                      (failure "Failed to update student profile" e,
                       mkWorld (magicLinkTokens w) b t2)
                  end
              end
          end
      end.
Proof.
  unfold update_student. unfold_handler. simpl.
  destruct (truthy (prop body "email")); simpl; [|reflexivity].
  destruct (negb (truthy (prop body "updates")) || _); simpl; [reflexivity|].
  destruct (normalize (prop body "email")) as [e|m]; simpl; [|reflexivity].
  destruct (select (base w) "Students" (byEmail e)) as [[|s rs]|m]; simpl;
    try reflexivity.
  destruct (update (base w) "Students" (id s) _) as [[r|m] b]; simpl;
    [|reflexivity].
  by destruct (hydrateStudent b order r).
Qed.

(** Hydration keeps the cells of the record, apart from the four
    names it sets itself. *)
Lemma hydrateStudent_cells (st : Base) order r s k :
  hydrateStudent st order r = Ok s →
  k ∉ ["id"; "recruitmentManager"; "leadMentor"; "meetings"] →
  s !! k = fields r !! k.
Proof.
  intros Hs Hk.
  assert (k ≠ "id" ∧ k ≠ "recruitmentManager" ∧ k ≠ "leadMentor" ∧ k ≠ "meetings")
    as (? & ? & ? & ?).
  { rewrite !not_elem_of_cons in Hk. by destruct Hk as (? & ? & ? & ? & _). }
  revert Hs. unfold hydrateStudent.
  destruct (has_elems _).
  - destruct (js_map _ _); [|discriminate]. intros [= <-].
    by rewrite lookup_insert_ne, !hydrateMentor_other, spread_lookup.
  - intros [= <-].
    by rewrite lookup_insert_ne, !hydrateMentor_other, spread_lookup.
Qed.

(** No allow-listed field bears a name the hydrator sets. *)
Lemma allowed_not_derived k :
  k ∈ allowedFields →
  k ∉ ["id"; "recruitmentManager"; "leadMentor"; "meetings"].
Proof.
  intros Hk Hin. unfold allowedFields in Hk.
  rewrite !elem_of_cons in Hk. rewrite !elem_of_cons in Hin.
  destruct Hin as [->|[->|[->|[->|?%elem_of_nil]]]]; try done;
    repeat (destruct Hk as [Hk|Hk]; [discriminate|]);
    by apply elem_of_nil in Hk.
Qed.

(** When the email selects a student, the update handler sends the
    patch to the store as an update of the selected record and answers
    with the hydration of the record the store returns. *)
Lemma update_student_sent order body s st rs (w : World Base) :
  prop body "email" = VStr s → s ≠ "" →
  truthy (prop body "updates") && typeof_object (prop body "updates") = true →
  select (base w) "Students"
    (byEmail (JsString.trim (JsString.toLowerCase s))) = Ok (st :: rs) →
  trace (update_student order body w).2
  = trace w ++ [StudentsSelect (byEmail (JsString.trim (JsString.toLowerCase s)));
                StudentsUpdate (id st) (fieldsToUpdate (prop body "updates"))]
  ∧ base (update_student order body w).2
    = (update (base w) "Students" (id st) (fieldsToUpdate (prop body "updates"))).2
  ∧ ∀ r b student,
      update (base w) "Students" (id st) (fieldsToUpdate (prop body "updates"))
      = (Ok r, b) →
      hydrateStudent b order r = Ok student →
      (update_student order body w).1
      = json {[ "success" := VBool true; "student" := VObj student ]}.
Proof.
  intros He Hs Hguard Hsel. apply String.eqb_neq in Hs.
  apply andb_true_iff in Hguard as [Ht Ho].
  rewrite update_student_unfold, He. simpl. rewrite Hs, Ht, Ho. simpl.
  unfold normalize. rewrite Hsel.
  destruct (update _ _ _ _) as [[r|m] b]; simpl.
  - destruct (hydrateStudent b order r) as [student|m] eqn:Hh; simpl;
      (split_and!; [by rewrite <- app_assoc|done|]);
      intros r' b' student' [= <- <-] Hh'; rewrite Hh in Hh'; by simplify_eq.
  - split_and!; [by rewrite <- app_assoc|done|]. by intros r b' student [=].
Qed.

End UpdateFacts.

Section ProfileUpdate.

Context {Base : Type} `{RecordStore Base}.

(** C7. An update request whose [updates] object mixes allow-listed
    and other fields persists the allow-listed ones only: every patch
    the request sends to the store is the allow-list filter of
    [updates], so a field outside the allow-list is in no patch; the
    whole outcome (response and store) is the one of the request that
    carries the allow-listed fields alone; and on a store that
    patches, a column that is not allow-listed has in the returned
    student the cell it had before. When the email selects a student
    the patch is sent: the request updates the selected record with
    the allow-list filter of [updates], which holds every allow-listed
    field of [updates] whose value is not null, and it answers with
    the hydration of the record the store returns, so that the
    returned student shows the store's cells of the allow-listed
    fields, the new values on a store that applies patches. *)
Theorem update_writes_allow_listed_only order body o (w : World Base) :
  prop body "updates" = VObj o →
  let out := update_student order body w in
  (∃ new, trace out.2 = trace w ++ new
          ∧ ∀ recordId patch, StudentsUpdate recordId patch ∈ new →
              ∀ k, patch !! k
                   = if bool_decide (k ∈ allowedFields)
                     then kept (VObj o) k else None)
  ∧ (∀ body' o',
       prop body' "email" = prop body "email" →
       prop body' "updates" = VObj o' →
       (∀ k, k ∈ allowedFields → o' !! k = o !! k) →
       update_student order body' w = out)
  ∧ (patch_semantics (base w) → status out.1 = 200 →
     ∃ e s rs student,
       normalize (prop body "email") = Ok e
       ∧ select (base w) "Students" (byEmail e) = Ok (s :: rs)
       ∧ returned_student out.1 = Some student
       ∧ ∀ k, k ∉ allowedFields →
              k ∉ ["id"; "recruitmentManager"; "leadMentor"; "meetings"] →
              student !! k = fields s !! k)
  ∧ (∀ s st rs,
       prop body "email" = VStr s → s ≠ "" →
       select (base w) "Students"
         (byEmail (JsString.trim (JsString.toLowerCase s))) = Ok (st :: rs) →
       trace out.2
       = trace w ++ [StudentsSelect
                       (byEmail (JsString.trim (JsString.toLowerCase s)));
                     StudentsUpdate (id st) (fieldsToUpdate (VObj o))]
       ∧ base out.2
         = (update (base w) "Students" (id st) (fieldsToUpdate (VObj o))).2
       ∧ (∀ k v, k ∈ allowedFields → o !! k = Some v →
                 v ≠ VNull → v ≠ VUndefined →
                 fieldsToUpdate (VObj o) !! k = Some v)
       ∧ ∀ r b student,
           update (base w) "Students" (id st) (fieldsToUpdate (VObj o)) = (Ok r, b) →
           hydrateStudent b order r = Ok student →
           out.1 = json {[ "success" := VBool true; "student" := VObj student ]}
           ∧ (∀ k, k ∈ allowedFields → student !! k = fields r !! k)
           ∧ (patch_applies (base w) →
              ∀ k v, fieldsToUpdate (VObj o) !! k = Some v →
                     student !! k = Some v)).
Proof.
  intros Hupd out. subst out. split_and!.
  - rewrite update_student_unfold, Hupd. simpl.
    destruct (truthy (prop body "email")); simpl;
      [|exists []; split; [by rewrite app_nil_r|by intros ?? ?%elem_of_nil]].
    destruct (normalize (prop body "email")) as [e|m]; simpl;
      [|exists []; split; [by rewrite app_nil_r|by intros ?? ?%elem_of_nil]].
    destruct (select (base w) "Students" (byEmail e)) as [[|s rs]|m]; simpl.
    + eexists. split; [reflexivity|]. intros ?? Hin.
      apply list_elem_of_singleton in Hin. discriminate.
    + assert (∀ recordId patch,
                StudentsUpdate recordId patch
                ∈ [StudentsSelect (byEmail e);
                   StudentsUpdate (id s) (fieldsToUpdate (VObj o))] →
                ∀ k, patch !! k
                     = if bool_decide (k ∈ allowedFields)
                       then kept (VObj o) k else None) as Hnew.
      { intros ?? Hin k. rewrite !elem_of_cons in Hin.
        destruct Hin as [?|[[= -> ->]|?%elem_of_nil]]; try done.
        apply fieldsToUpdate_lookup. }
      destruct (update (base w) "Students" (id s) _) as [[r|m] b]; simpl.
      * destruct (hydrateStudent b order r); simpl;
          (eexists; split; [by rewrite <- app_assoc|exact Hnew]).
      * eexists; split; [by rewrite <- app_assoc|exact Hnew].
    + eexists. split; [reflexivity|]. intros ?? Hin.
      apply list_elem_of_singleton in Hin. discriminate.
  - intros body' o' Hemail Hupd' Hagree.
    rewrite !update_student_unfold, Hemail, Hupd, Hupd'. simpl.
    by rewrite (fieldsToUpdate_agree o o' Hagree).
  - intros Hpatch. rewrite update_student_unfold, Hupd. simpl.
    destruct (truthy (prop body "email")); simpl; [|discriminate].
    destruct (normalize (prop body "email")) as [e|m]; simpl; [|discriminate].
    destruct (select (base w) "Students" (byEmail e)) as [[|s rs]|m] eqn:Hsel;
      simpl; try discriminate.
    destruct (update (base w) "Students" (id s) _) as [[r|m] b] eqn:Hup; simpl;
      [|discriminate].
    destruct (hydrateStudent b order r) as [student|m] eqn:Hhyd; simpl;
      [|discriminate].
    intros _. exists e, s, rs, student. split_and!; try done.
    intros k Hk Hder.
    rewrite (hydrateStudent_cells b order r student k Hhyd Hder).
    apply (Hpatch _ _ _ _ _ _ Hsel Hup).
    rewrite fieldsToUpdate_lookup. by rewrite bool_decide_eq_false_2.
  - intros s st rs He Hs Hsel.
    destruct (update_student_sent order body s st rs w He Hs) as (Htr & Hb & Hresp);
      [by rewrite Hupd|done|].
    rewrite Hupd in Htr, Hb, Hresp. split_and!; [done|done| |].
    + intros k v Hk Hv Hnull Hundef.
      rewrite fieldsToUpdate_lookup, bool_decide_eq_true_2 by done.
      unfold kept, has_property, member, prop. rewrite Hv. simpl. by destruct v.
    + intros r b student Hup Hh. split_and!.
      * by eapply Hresp.
      * intros k Hk. eapply hydrateStudent_cells; [exact Hh|].
        by apply allowed_not_derived.
      * intros Happ k v Hkv.
        assert (k ∈ allowedFields) as Hk.
        { rewrite fieldsToUpdate_lookup in Hkv.
          by destruct (bool_decide_reflect (k ∈ allowedFields)). }
        rewrite (hydrateStudent_cells b order r student k Hh)
          by by apply allowed_not_derived.
        by apply (Happ _ _ _ _ Hup).
Qed.

(** C10. In an update request, an allow-listed field whose value is
    null or undefined is dropped from the patch: the request has the
    outcome of the request that does not mention the field, and on a
    store that patches the returned student has the cell the record
    had before. An empty string for an allow-listed field is kept in
    the patch that goes to the store. When the email selects a student
    that patch is sent as the update of the selected record, without
    the field in the first case and with the empty string in the
    second, and the student returned shows the store's cell of the
    field: the old one on a store that patches when the field was
    dropped, the value of the patch on a store that applies patches. *)
Theorem update_drops_null_keeps_empty order body o f (w : World Base) :
  f ∈ allowedFields →
  prop body "updates" = VObj o →
  let out := update_student order body w in
  (o !! f = Some VNull ∨ o !! f = Some VUndefined →
     fieldsToUpdate (VObj o) !! f = None
     ∧ out = update_student order (<[ "updates" := VObj (delete f o) ]> body) w
     ∧ (patch_semantics (base w) → status out.1 = 200 →
        ∃ e s rs student,
          normalize (prop body "email") = Ok e
          ∧ select (base w) "Students" (byEmail e) = Ok (s :: rs)
          ∧ returned_student out.1 = Some student
          ∧ student !! f = fields s !! f))
  ∧ (o !! f = Some (VStr "") →
     fieldsToUpdate (VObj o) !! f = Some (VStr "")
     ∧ (status out.1 = 200 →
        ∃ recordId,
          StudentsUpdate recordId (fieldsToUpdate (VObj o)) ∈ trace out.2))
  ∧ (∀ s st rs,
       prop body "email" = VStr s → s ≠ "" →
       select (base w) "Students"
         (byEmail (JsString.trim (JsString.toLowerCase s))) = Ok (st :: rs) →
       trace out.2
       = trace w ++ [StudentsSelect
                       (byEmail (JsString.trim (JsString.toLowerCase s)));
                     StudentsUpdate (id st) (fieldsToUpdate (VObj o))]
       ∧ base out.2
         = (update (base w) "Students" (id st) (fieldsToUpdate (VObj o))).2
       ∧ (o !! f = Some VNull ∨ o !! f = Some VUndefined →
          fieldsToUpdate (VObj o) !! f = None)
       ∧ (o !! f = Some (VStr "") →
          fieldsToUpdate (VObj o) !! f = Some (VStr ""))
       ∧ ∀ r b student,
           update (base w) "Students" (id st) (fieldsToUpdate (VObj o)) = (Ok r, b) →
           hydrateStudent b order r = Ok student →
           returned_student out.1 = Some student
           ∧ student !! f = fields r !! f
           ∧ (patch_semantics (base w) →
              fieldsToUpdate (VObj o) !! f = None →
              student !! f = fields st !! f)
           ∧ (patch_applies (base w) →
              ∀ v, fieldsToUpdate (VObj o) !! f = Some v → student !! f = Some v)).
Proof.
  intros Hf Hupd out. subst out. split_and!.
  - intros Hnull.
    assert (fieldsToUpdate (VObj o) !! f = None) as Hdrop.
    { rewrite fieldsToUpdate_lookup, bool_decide_eq_true_2 by done.
      unfold kept, has_property, member, prop.
      by destruct Hnull as [->| ->]. }
    assert (fieldsToUpdate (VObj (delete f o)) = fieldsToUpdate (VObj o)) as Hsame.
    { apply map_eq. intros k. destruct (decide (k = f)) as [->|Hne].
      - rewrite Hdrop, fieldsToUpdate_lookup, bool_decide_eq_true_2 by done.
        unfold kept, has_property, member, prop. by rewrite lookup_delete_eq.
      - rewrite !fieldsToUpdate_lookup.
        unfold kept, has_property, member, prop.
        by rewrite lookup_delete_ne. }
    split_and!; [done| |].
    + rewrite !update_student_unfold. unfold prop.
      rewrite lookup_insert_eq, lookup_insert_ne by done. simpl.
      fold (prop body "email"). fold (prop body "updates").
      by rewrite Hupd, Hsame.
    + intros Hpatch. rewrite update_student_unfold, Hupd. simpl.
      destruct (truthy (prop body "email")); simpl; [|discriminate].
      destruct (normalize (prop body "email")) as [e|m]; simpl; [|discriminate].
      destruct (select (base w) "Students" (byEmail e)) as [[|s rs]|m] eqn:Hsel;
        simpl; try discriminate.
      destruct (update (base w) "Students" (id s) _) as [[r|m] b] eqn:Hup; simpl;
        [|discriminate].
      destruct (hydrateStudent b order r) as [student|m] eqn:Hhyd; simpl;
        [|discriminate].
      intros _. exists e, s, rs, student. split_and!; try done.
      rewrite (hydrateStudent_cells b order r student f Hhyd).
      * by apply (Hpatch _ _ _ _ _ _ Hsel Hup).
      * intros Hin. revert Hf. unfold allowedFields.
        rewrite !elem_of_cons in Hin |- *. rewrite !elem_of_cons.
        intros Hf. destruct Hin as [->|[->|[->|[->|?%elem_of_nil]]]]; try done;
          repeat (destruct Hf as [Hf|Hf]; [discriminate|]);
          by apply elem_of_nil in Hf.
  - intros Hempty.
    assert (fieldsToUpdate (VObj o) !! f = Some (VStr "")) as Hkeep.
    { rewrite fieldsToUpdate_lookup, bool_decide_eq_true_2 by done.
      unfold kept, has_property, member, prop. by rewrite Hempty. }
    split; [done|].
    rewrite update_student_unfold, Hupd. simpl.
    destruct (truthy (prop body "email")); simpl; [|discriminate].
    destruct (normalize (prop body "email")) as [e|m]; simpl; [|discriminate].
    destruct (select (base w) "Students" (byEmail e)) as [[|s rs]|m];
      simpl; try discriminate.
    destruct (update (base w) "Students" (id s) _) as [[r|m] b]; simpl;
      [|discriminate].
    destruct (hydrateStudent b order r) as [student|m]; simpl; [|discriminate].
    intros _. exists (id s).
    rewrite elem_of_app. right. by apply list_elem_of_singleton.
  - intros s st rs He Hs Hsel.
    destruct (update_student_sent order body s st rs w He Hs) as (Htr & Hb & Hresp);
      [by rewrite Hupd|done|].
    rewrite Hupd in Htr, Hb, Hresp. split_and!; [done|done| | |].
    + intros Hnull. rewrite fieldsToUpdate_lookup, bool_decide_eq_true_2 by done.
      unfold kept, has_property, member, prop. by destruct Hnull as [->| ->].
    + intros Hempty. rewrite fieldsToUpdate_lookup, bool_decide_eq_true_2 by done.
      unfold kept, has_property, member, prop. by rewrite Hempty.
    + intros r b student Hup Hh.
      assert (student !! f = fields r !! f) as Hcell.
      { eapply hydrateStudent_cells; [exact Hh|]. by apply allowed_not_derived. }
      split_and!.
      * rewrite (Hresp r b student Hup Hh). unfold returned_student. simpl.
        by rewrite lookup_insert_ne, lookup_singleton_eq.
      * done.
      * intros Hpatch Hnone. rewrite Hcell.
        by apply (Hpatch _ _ _ _ _ _ Hsel Hup).
      * intros Happ v Hv. rewrite Hcell. by apply (Happ _ _ _ _ Hup).
Qed.

End ProfileUpdate.

(** ** Email normalization of the student lookups *)

Section Normalization.

Context {Base : Type} `{RecordStore Base}.
Variable cfg : Config.

(** Magic-link issuance looks the student up under the normalized
    email. *)
Lemma magic_link_normalizes now uuid a b (w : World Base) :
  a ≠ "" → b ≠ "" →
  normalize (VStr a) = normalize (VStr b) →
  magic_link cfg now uuid {[ "email" := VStr a ]} w
  = magic_link cfg now uuid {[ "email" := VStr b ]} w.
Proof.
  intros Ha Hb Hn. unfold normalize in Hn. injection Hn as Hn.
  unfold magic_link, handler, prop.
  rewrite !lookup_singleton_eq. simpl.
  apply String.eqb_neq in Ha, Hb. rewrite Ha, Hb. simpl.
  unfold mbind, M_bind, lift, normalize. by rewrite Hn.
Qed.

(** So does the dev login. *)
Lemma dev_login_normalizes now uuid a b (w : World Base) :
  a ≠ "" → b ≠ "" →
  normalize (VStr a) = normalize (VStr b) →
  dev_login cfg now uuid {[ "email" := VStr a ]} w
  = dev_login cfg now uuid {[ "email" := VStr b ]} w.
Proof.
  intros Ha Hb Hn. unfold normalize in Hn. injection Hn as Hn.
  rewrite !dev_login_unfold. unfold prop, js_or.
  rewrite !lookup_singleton_eq. simpl.
  apply String.eqb_neq in Ha, Hb. rewrite Ha, Hb. simpl.
  unfold normalize. by rewrite Hn.
Qed.

(** So does the profile update. *)
Lemma update_student_normalizes order a b updates (w : World Base) :
  a ≠ "" → b ≠ "" →
  normalize (VStr a) = normalize (VStr b) →
  update_student order {[ "email" := VStr a; "updates" := updates ]} w
  = update_student order {[ "email" := VStr b; "updates" := updates ]} w.
Proof.
  intros Ha Hb Hn. unfold normalize in Hn. injection Hn as Hn.
  rewrite !update_student_unfold. unfold prop.
  rewrite !lookup_insert_eq, !lookup_insert_ne, !lookup_singleton_eq by done.
  simpl. apply String.eqb_neq in Ha, Hb. rewrite Ha, Hb. simpl.
  unfold normalize. by rewrite Hn.
Qed.

(** Token verification looks the student up under the email bound to
    the token, which issuance stored normalized. *)
Lemma verify_selects_bound_email now now' uuid body t td (w : World Base) :
  prop body "token" = VStr t → t ≠ "" →
  magicLinkTokens w !! t = Some td → now ≤ expiresAt td →
  trace (verify now now' uuid body w).2
  = trace w ++ [TokenDelete t; StudentsSelect (byEmail (email td))].
Proof.
  intros Htok Hne Hsome Hlive. apply String.eqb_neq in Hne.
  rewrite verify_unfold, Htok, Hne, Hsome. simpl.
  destruct (Z.gtb_spec now (expiresAt td)); [lia|].
  destruct (select _ _ _) as [[|s ss]|m]; simpl; by rewrite <- app_assoc.
Qed.

(** The student fetch queries the store with the email as it came in
    the URL. *)
Lemma get_student_selects_raw_email order e (w : World Base) :
  trace (get_student order e w).2 = trace w ++ [StudentsSelect (byEmail e)].
Proof.
  unfold get_student, getStudentByEmail. unfold_handler.
  destruct (select (base w) "Students" (byEmail e)) as [[|s rs]|m]; simpl;
    try reflexivity.
  by destruct (hydrateStudent (base w) order s).
Qed.

End Normalization.

(** C3. The student fetch does not normalize the email: on the sample
    store, where the other lookups resolve ["Jane@Example.com "] and
    ["jane@example.com"] to the same record, [GET /student/:email]
    finds the student under the second spelling and answers 404 under
    the first. *)
Theorem get_student_skips_normalization :
  normalize (VStr "Jane@Example.com ") = normalize (VStr "jane@example.com")
  ∧ status (magic_link Sample.cfg 1000 "tok-1"
              {[ "email" := VStr "Jane@Example.com " ]} Sample.w0).1 = 200
  ∧ status (get_student [] "jane@example.com" Sample.w0).1 = 200
  ∧ (get_student [] "Jane@Example.com " Sample.w0).1
    = error 404 "Student not found".
Proof. split_and!; vm_compute; reflexivity. Qed.

(** ** The properties at work on the sample data *)

Section Witnesses.

Import MemStore Sample.

Lemma redeem_at_most_once_witness :
  status (verify 2000 2500 "sess-1" tok1 w1).1 = 200
  ∧ (verify 3000 3500 "sess-2" tok1
       (run cfg [GetStudent [] "jane@example.com"; MagicLink 2100 "tok-2" jane_login]
          (verify 2000 2500 "sess-1" tok1 w1).2)).1
    = error 401 "Invalid or expired link".
Proof.
  split; [vm_compute; reflexivity|].
  apply (redeem_at_most_once cfg w1 "tok-1").
  - reflexivity.
  - vm_compute; reflexivity.
  - repeat constructor; simpl; [tauto|discriminate].
  - reflexivity.
Defined.

Lemma token_expiry_witness :
  status (magic_link cfg 1000 "tok-1" jane_login w0).1 = 200
  ∧ ∃ e,
      magicLinkTokens w1 !! "tok-1" = Some (mkTokenData e (1000 + 15 * 60 * 1000))
      ∧ (verify (1000 + 15 * 60 * 1000 + 1000) 0 "sess-1" tok1
           (run cfg [GetStudent [] "omar@example.com"] w1)).1
        = error 401 "Link has expired. Please request a new one."
      ∧ status (verify (1000 + 14 * 60 * 1000 + 59 * 1000) 0 "sess-1" tok1
                  (run cfg [GetStudent [] "omar@example.com"] w1)).1 = 200.
Proof.
  split; [vm_compute; reflexivity|]. unfold w1.
  destruct (token_expiry cfg w0 1000 "tok-1" jane_login
              [GetStudent [] "omar@example.com"]) as (e & Hbound & Hredeem).
  - vm_compute; reflexivity.
  - discriminate.
  - repeat constructor; simpl; tauto.
  - exists e. split; [exact Hbound|].
    assert (e = "jane@example.com") as ->.
    { vm_compute in Hbound. by injection Hbound as <-. }
    split.
    + apply (Hredeem _ 0 "sess-1" tok1); [reflexivity|lia].
    + destruct (Hredeem (1000 + 14 * 60 * 1000 + 59 * 1000) 0 "sess-1" tok1)
        as [_ Hearly]; [reflexivity|].
      rewrite (Hearly ltac:(lia) jane []); [reflexivity|].
      vm_compute; reflexivity.
Defined.

Lemma dev_login_forbidden_witness :
  DEV_MODE cfg ≠ Some "true"
  ∧ dev_login cfg 1000 "sess-1" {[ "email" := VStr "jane@example.com" ]} w0
    = (error 403 "Dev login not available in production", w0).
Proof.
  split; [discriminate|].
  apply (dev_login_forbidden cfg w0 1000 "sess-1"). discriminate.
Defined.

Lemma redeem_student_not_found_witness :
  magicLinkTokens w9 !! "tok-9" = Some (mkTokenData "gone@example.com" 5000)
  ∧ (verify 2000 2500 "sess-1" tok9 w9).1 = error 404 "Student not found"
  ∧ magicLinkTokens (verify 2000 2500 "sess-1" tok9 w9).2 !! "tok-9" = None.
Proof.
  split; [reflexivity|].
  destruct (redeem_student_not_found w9 "tok-9"
              (mkTokenData "gone@example.com" 5000) 2000 2500 "sess-1" tok9)
    as (Hresp & _ & Htokens & _).
  - reflexivity.
  - discriminate.
  - reflexivity.
  - simpl; lia.
  - reflexivity.
  - split; [exact Hresp|]. rewrite Htokens. apply lookup_delete_eq.
Defined.

Lemma session_expires_in_six_months_witness :
  status (serve cfg (Verify 2000 2500 "sess-1" tok1) w1).1 = 200
  ∧ session_expiresAt (serve cfg (Verify 2000 2500 "sess-1" tok1) w1).1
    = Some (2500 + 15552000000).
Proof.
  split; [vm_compute; reflexivity|].
  apply (session_expires_in_six_months cfg w1 (Verify 2000 2500 "sess-1" tok1) 2500).
  - reflexivity.
  - vm_compute; reflexivity.
Defined.

(** With the development flag set, the dev login mints a session for
    the student of the email. *)
Lemma dev_login_enabled :
  status (dev_login cfg_dev 1000 "sess-1" jane_login w0).1 = 200
  ∧ session_expiresAt (dev_login cfg_dev 1000 "sess-1" jane_login w0).1
    = Some (1000 + 15552000000).
Proof. split; vm_compute; reflexivity. Qed.

Lemma jane_is_a_student_record : student_record jane.
Proof.
  unfold student_record, link_column.
  split_and!; try (right; eexists; reflexivity); reflexivity.
Qed.

Lemma hydrate_never_fails_witness :
  student_record jane
  ∧ ∃ s ms, hydrateStudent airtable [2; 0; 1]%nat jane = Ok s
            ∧ s !! "meetings" = Some (VArr ms)
            ∧ length ms = 3%nat
            ∧ s !! "recruitmentManager" = None.
Proof.
  split; [exact jane_is_a_student_record|].
  destruct (hydrate_never_fails airtable [2; 0; 1]%nat jane jane_is_a_student_record)
    as (s & ms & Hs & Hms & _ & _ & _ & _ & Hrm & _ & Hids & _).
  exists s, ms. split_and!; [exact Hs|exact Hms| |].
  - destruct (Hids [VStr "recM1"; VStr "recLost"; VStr "recM2"; VStr "recM3"])
      as [-> _]; reflexivity.
  - apply (Hrm (VStr "recGone") "NOT_FOUND"); reflexivity.
Defined.

Lemma hydrate_meetings_in_order_witness :
  ∃ s, hydrateStudent airtable [2; 0; 1]%nat jane = Ok s
       ∧ s !! "meetings"
         = Some (VArr [getMeetingById airtable (VStr "recM1");
                       getMeetingById airtable (VStr "recM2");
                       getMeetingById airtable (VStr "recM3")])
       ∧ hydrateStudent airtable [0; 0; 0; 0]%nat jane = Ok s.
Proof.
  destruct (hydrate_meetings_in_order airtable [2; 0; 1]%nat jane
              [VStr "recM1"; VStr "recLost"; VStr "recM2"; VStr "recM3"])
    as (s & Hs & Hms & Hany); [reflexivity|discriminate|].
  exists s. split_and!; [exact Hs|exact Hms|apply Hany].
Defined.

(** The sample store patches. *)
Lemma airtable_patches : patch_semantics airtable.
Proof.
  intros formula s rs patch r b Hsel Hup k Hk.
  assert (s = jane ∨ s = omar) as Hs.
  { revert Hsel. simpl. unfold mem_select. simpl.
    destruct (matches formula jane), (matches formula omar); simpl;
      intros [= <-]; auto. }
  destruct Hs as [-> | ->]; revert Hup; simpl; unfold mem_update; simpl;
    intros [= <- _]; simpl; by rewrite lookup_union_r.
Qed.

(** The in-memory store applies the patches it is sent. *)
Lemma mem_store_applies (b : MemStore.t) : patch_applies b.
Proof.
  intros recordId patch r b' Hup k v Hkv.
  revert Hup. simpl. unfold mem_update.
  destruct (List.find (has_id recordId) (students b)) as [r0|] eqn:Hfind;
    [|discriminate].
  apply List.find_some in Hfind as [_ Hid].
  intros [= <- _]. unfold patch_record. rewrite Hid. simpl.
  by apply lookup_union_Some_l.
Qed.

Lemma update_writes_allow_listed_only_witness :
  prop jane_update "updates" = VObj jane_updates
  ∧ status (update_student [] jane_update w0).1 = 200
  ∧ (∃ student,
       returned_student (update_student [] jane_update w0).1 = Some student
       ∧ student !! "Name" = Some (VStr "Jane Doe"))
  ∧ update_student []
      {[ "email" := VStr "jane@example.com";
         "updates" := VObj {[ "GPA" := VStr "4.0";
                              "Degree / Major" := VNull;
                              "CV/Resume" := VStr "" ]} ]} w0
    = update_student [] jane_update w0
  ∧ trace (update_student [] jane_update w0).2
    = [StudentsSelect (byEmail "jane@example.com");
       StudentsUpdate "recJane"
         {[ "GPA" := VStr "4.0"; "CV/Resume" := VStr "" ]}]
  ∧ (∃ r, find (base (update_student [] jane_update w0).2) "Students"
            (VStr "recJane") = Ok r
          ∧ fields r !! "GPA" = Some (VStr "4.0")
          ∧ fields r !! "Name" = Some (VStr "Jane Doe"))
  ∧ (∃ student,
       (update_student [] jane_update w0).1
       = json {[ "success" := VBool true; "student" := VObj student ]}
       ∧ student !! "GPA" = Some (VStr "4.0")
       ∧ student !! "CV/Resume" = Some (VStr "")).
Proof.
  split; [reflexivity|]. split; [vm_compute; reflexivity|].
  destruct (update_writes_allow_listed_only [] jane_update jane_updates w0)
    as (_ & Hsame & Hframe & Hsent); [reflexivity|].
  destruct (Hsent "jane@example.com" jane [])
    as (Htrace & Hbase & Hkept & Hback); [reflexivity|discriminate|reflexivity|].
  assert (fieldsToUpdate (VObj jane_updates) !! "GPA" = Some (VStr "4.0")) as Hgpa.
  { apply Hkept; [|reflexivity|discriminate|discriminate].
    unfold allowedFields. rewrite !elem_of_cons. auto 10. }
  assert (fieldsToUpdate (VObj jane_updates) !! "CV/Resume" = Some (VStr "")) as Hcv.
  { apply Hkept; [|reflexivity|discriminate|discriminate].
    unfold allowedFields. rewrite !elem_of_cons. auto 10. }
  split_and!.
  - destruct Hframe as (e & s & rs & student & He & Hsel & Hret & Hcells).
    + exact airtable_patches.
    + vm_compute; reflexivity.
    + exists student. split; [exact Hret|].
      assert (e = "jane@example.com") as -> by (by injection He as <-).
      assert (s = jane) as -> by (by injection Hsel as <-).
      rewrite Hcells; [reflexivity| |].
      * unfold allowedFields. rewrite !not_elem_of_cons.
        split_and!; try discriminate. apply not_elem_of_nil.
      * rewrite !not_elem_of_cons.
        split_and!; try discriminate. apply not_elem_of_nil.
  - apply (Hsame _ {[ "GPA" := VStr "4.0";
                      "Degree / Major" := VNull;
                      "CV/Resume" := VStr "" ]}); [reflexivity|reflexivity|].
    intros k Hk. unfold allowedFields in Hk. rewrite !elem_of_cons in Hk.
    destruct Hk as [->|[->|[->|[->|[->|[->|[->|[->|Hk]]]]]]]];
      try reflexivity. by apply elem_of_nil in Hk.
  - rewrite Htrace. vm_compute. reflexivity.
  - rewrite Hbase. eexists. split; [vm_compute; reflexivity|].
    split; vm_compute; reflexivity.
  - destruct (update (base w0) "Students" (id jane)
                (fieldsToUpdate (VObj jane_updates))) as [[r|m] b] eqn:Hup;
      [|vm_compute in Hup; discriminate].
    destruct (hydrateStudent b [] r) as [student|m] eqn:Hh.
    + destruct (Hback r b student eq_refl Hh) as (Hresp & _ & Happlied).
      exists student. split; [exact Hresp|].
      split; apply Happlied; try apply mem_store_applies; assumption.
    + vm_compute in Hup. injection Hup as <- <-.
      vm_compute in Hh. discriminate.
Defined.

Lemma update_drops_null_keeps_empty_witness :
  jane_updates !! "Degree / Major" = Some VNull
  ∧ jane_updates !! "CV/Resume" = Some (VStr "")
  ∧ fieldsToUpdate (VObj jane_updates) !! "Degree / Major" = None
  ∧ fieldsToUpdate (VObj jane_updates) !! "CV/Resume" = Some (VStr "")
  ∧ update_student [] jane_update w0
    = update_student []
        (<[ "updates" := VObj (delete "Degree / Major" jane_updates) ]> jane_update) w0
  ∧ trace (update_student [] jane_blank w0).2
    = [StudentsSelect (byEmail "jane@example.com");
       StudentsUpdate "recJane" {[ "CV/Resume" := VStr "" ]}]
  ∧ (∃ r, find (base (update_student [] jane_blank w0).2) "Students"
            (VStr "recJane") = Ok r
          ∧ fields r !! "GPA" = Some (VStr "3.7")
          ∧ fields r !! "CV/Resume" = Some (VStr ""))
  ∧ (∃ student,
       returned_student (update_student [] jane_blank w0).1 = Some student
       ∧ student !! "GPA" = Some (VStr "3.7")
       ∧ student !! "CV/Resume" = Some (VStr "")).
Proof.
  split; [reflexivity|]. split; [reflexivity|].
  destruct (update_drops_null_keeps_empty [] jane_update jane_updates
              "Degree / Major" w0) as (Hnull & _ & _).
  { unfold allowedFields. rewrite !elem_of_cons. auto. }
  { reflexivity. }
  destruct (update_drops_null_keeps_empty [] jane_update jane_updates
              "CV/Resume" w0) as (_ & Hempty & _).
  { unfold allowedFields. rewrite !elem_of_cons. auto 10. }
  { reflexivity. }
  destruct Hnull as (Hdrop & Hsame & _); [by left|].
  destruct Hempty as (Hkeep & _); [reflexivity|].
  set (blank := {[ "GPA" := VNull; "CV/Resume" := VStr "" ]} : gmap string value).
  destruct (update_drops_null_keeps_empty [] jane_blank blank "GPA" w0)
    as (_ & _ & Hgpa).
  { unfold allowedFields. rewrite !elem_of_cons. auto. }
  { reflexivity. }
  destruct (update_drops_null_keeps_empty [] jane_blank blank "CV/Resume" w0)
    as (_ & _ & Hcv).
  { unfold allowedFields. rewrite !elem_of_cons. auto 10. }
  { reflexivity. }
  destruct (Hgpa "jane@example.com" jane [])
    as (Htrace & Hbase & Hdropped & _ & Hback);
    [reflexivity|discriminate|reflexivity|].
  destruct (Hcv "jane@example.com" jane [])
    as (_ & _ & _ & Hsent & Hback');
    [reflexivity|discriminate|reflexivity|].
  split_and!; [exact Hdrop|exact Hkeep|exact Hsame| | |].
  - rewrite Htrace. vm_compute. reflexivity.
  - rewrite Hbase. eexists. split; [vm_compute; reflexivity|].
    split; vm_compute; reflexivity.
  - destruct (update (base w0) "Students" (id jane)
                (fieldsToUpdate (VObj blank))) as [[r|m] b] eqn:Hup;
      [|vm_compute in Hup; discriminate].
    destruct (hydrateStudent b [] r) as [student|m] eqn:Hh.
    + destruct (Hback r b student eq_refl Hh) as (Hret & _ & Hold & _).
      destruct (Hback' r b student eq_refl Hh) as (_ & _ & _ & Hnew).
      exists student. split_and!; [exact Hret| |].
      * rewrite Hold; [reflexivity|exact airtable_patches|].
        apply Hdropped. by left.
      * apply Hnew; [apply mem_store_applies|]. by apply Hsent.
    + vm_compute in Hup. injection Hup as <- <-.
      vm_compute in Hh. discriminate.
Defined.

End Witnesses.

(** * Further properties of the server *)

(** ** Issuing magic links *)

Section Issuance.

Context {Base : Type} `{RecordStore Base}.
Variable cfg : Config.

(** What [magic_link] does, branch by branch. *)
Lemma magic_link_unfold now uuid body (w : World Base) :
  magic_link cfg now uuid body w =
    if negb (truthy (prop body "email")) then (error 400 "Email is required", w)
    else
      match normalize (prop body "email") with
      | Err e => (failure "Failed to send magic link" e, w)
      | Ok normalizedEmail =>
          let t1 := trace w ++ [StudentsSelect (byEmail normalizedEmail)] in
          match select (base w) "Students" (byEmail normalizedEmail) with
          | Err e => (failure "Failed to send magic link" e,
                      mkWorld (magicLinkTokens w) (base w) t1)
          | Ok [] => (error 404 "No student found with this email",
                      mkWorld (magicLinkTokens w) (base w) t1)
          | Ok (student :: _) =>
              match firstName_of student with
              | Err e => (failure "Failed to send magic link" e,
                          mkWorld (magicLinkTokens w) (base w) t1)
              | Ok firstName =>
                  let data := mkTokenData normalizedEmail (now + 15 * 60 * 1000) in
                  let tokens := <[ uuid := data ]> (magicLinkTokens w) in
                  let t2 := t1 ++ [TokenSet uuid data] in
                  let magicLink :=
                    env_or (APP_URL cfg) ("http://localhost:" +:+ PORT cfg)
                      +:+ "?token=" +:+ uuid in
                  match resend cfg with
                  | None =>
                      (json {[ "success" := VBool true;
                               "message" := VStr "Magic link generated";
                               "devMode" := VBool true;
                               "magicLink" := VStr magicLink ]},
                       mkWorld tokens (base w) t2)
                  | Some send =>
                      let m := mkMail (env_or (EMAIL_FROM cfg)
                                         "WSG Portal <noreply@resend.dev>")
                                 normalizedEmail "Sign in to WSG Student Portal"
                                 firstName magicLink in
                      match send m with
                      | Ok _ =>
                          (json {[ "success" := VBool true;
                                   "message" := VStr "Magic link sent to your email" ]},
                           mkWorld tokens (base w) (t2 ++ [MailSend m]))
                      | Err e =>
                          (failure "Failed to send magic link" e,
                           mkWorld tokens (base w) (t2 ++ [MailSend m]))
                      end
                  end
              end
          end
      end.
Proof.
  unfold magic_link. unfold_handler.
  destruct (truthy (prop body "email")); simpl; [|reflexivity].
  destruct (normalize (prop body "email")) as [e|m]; simpl; [|reflexivity].
  destruct (select (base w) "Students" (byEmail e)) as [[|s rs]|m]; simpl;
    try reflexivity.
  destruct (firstName_of s) as [fn|m]; simpl; [|reflexivity].
  destruct (resend cfg) as [send|]; simpl; [|reflexivity].
  by destruct (send _) as [[]|m].
Qed.

(** X1. A magic-link request without an email, or with an empty one,
    is answered 400 and nothing happens: no lookup, no token. *)
Theorem magic_link_requires_email now uuid body (w : World Base) :
  truthy (prop body "email") = false →
  magic_link cfg now uuid body w = (error 400 "Email is required", w).
Proof. intros He. by rewrite magic_link_unfold, He. Qed.

(** X2. A magic-link request for an email that selects no student is
    answered 404 after the one lookup under the normalized email; no
    token is stored and no mail is sent. *)
Theorem magic_link_unknown_email now uuid body s (w : World Base) :
  prop body "email" = VStr s → s ≠ "" →
  select (base w) "Students"
    (byEmail (JsString.trim (JsString.toLowerCase s))) = Ok [] →
  magic_link cfg now uuid body w
  = (error 404 "No student found with this email",
     mkWorld (magicLinkTokens w) (base w)
       (trace w ++ [StudentsSelect
                      (byEmail (JsString.trim (JsString.toLowerCase s)))])).
Proof.
  intros He Hs Hsel. apply String.eqb_neq in Hs.
  rewrite magic_link_unfold, He. simpl. rewrite Hs. simpl.
  unfold normalize. by rewrite Hsel.
Qed.

(** X3. A successful magic-link request puts the link in its response
    only when no mailer is configured, and then sends no mail. With a
    mailer the body is just the success message, and the link, built
    on the stored token, goes out in one mail to the normalized
    address. *)
Theorem magic_link_exposes_link_without_mailer_only now uuid payload (w : World Base) :
  status (magic_link cfg now uuid payload w).1 = 200 →
  let out := magic_link cfg now uuid payload w in
  let magicLink :=
    env_or (APP_URL cfg) ("http://localhost:" +:+ PORT cfg) +:+ "?token=" +:+ uuid in
  (resend cfg = None →
   body out.1 !! "magicLink" = Some (VStr magicLink)
   ∧ body out.1 !! "devMode" = Some (VBool true)
   ∧ ∃ new, trace out.2 = trace w ++ new ∧ ∀ m, MailSend m ∉ new)
  ∧ (∀ send, resend cfg = Some send →
     body out.1 = {[ "success" := VBool true;
                     "message" := VStr "Magic link sent to your email" ]}
     ∧ ∃ e m old, normalize (prop payload "email") = Ok e
                  ∧ trace out.2 = old ++ [MailSend m]
                  ∧ mail_to m = e ∧ mail_link m = magicLink
                  ∧ is_Some (magicLinkTokens out.2 !! uuid)).
Proof.
  intros Hok out magicLink. subst out. revert Hok.
  rewrite magic_link_unfold.
  destruct (truthy (prop payload "email")); simpl; [|discriminate].
  destruct (normalize (prop payload "email")) as [e|m]; simpl; [|discriminate].
  destruct (select (base w) "Students" (byEmail e)) as [[|s rs]|m]; simpl;
    try discriminate.
  destruct (firstName_of s) as [fn|m]; simpl; [|discriminate].
  destruct (resend cfg) as [send|]; simpl.
  - destruct (send _) as [[]|m]; simpl; [|discriminate].
    intros _. split; [discriminate|]. intros send' [= <-].
    split; [reflexivity|]. eexists e, _, _. split_and!; try reflexivity.
    rewrite lookup_insert_eq. eauto.
  - intros _. split; [|discriminate]. intros _. split_and!; try reflexivity.
    eexists. split; [by rewrite <- app_assoc|].
    intros m Hin. rewrite elem_of_app, !list_elem_of_singleton in Hin.
    destruct Hin; discriminate.
Qed.

(** X4. The token is stored before the mail is sent: when the mailer
    rejects, the request is answered 500 and the token is nevertheless
    in the map, bound to the normalized email, and redeems for the
    student like any other while it has not expired. *)
Theorem magic_link_send_failure_keeps_token now uuid body s st rs fn send msg
    (w : World Base) :
  prop body "email" = VStr s → s ≠ "" → uuid ≠ "" →
  select (base w) "Students"
    (byEmail (JsString.trim (JsString.toLowerCase s))) = Ok (st :: rs) →
  firstName_of st = Ok fn →
  resend cfg = Some send → (∀ m, send m = Err msg) →
  let out := magic_link cfg now uuid body w in
  out.1 = failure "Failed to send magic link" msg
  ∧ magicLinkTokens out.2 !! uuid
    = Some (mkTokenData (JsString.trim (JsString.toLowerCase s))
              (now + 15 * 60 * 1000))
  ∧ ∀ t now' u, t ≤ now + 15 * 60 * 1000 →
      (verify t now' u {[ "token" := VStr uuid ]} out.2).1
      = json (session_reply u (now' + SESSION_DURATION_MS) st).
Proof.
  intros He Hs Hu Hsel Hfn Hsend Hdown out. subst out.
  apply String.eqb_neq in Hs, Hu.
  rewrite magic_link_unfold, He. simpl. rewrite Hs. simpl.
  unfold normalize. rewrite Hsel, Hfn, Hsend, Hdown. simpl.
  split_and!; [done|apply lookup_insert_eq|].
  intros t now' u Ht. rewrite verify_unfold. unfold prop.
  rewrite lookup_singleton_eq. simpl. rewrite Hu, lookup_insert_eq. simpl.
  destruct (Z.gtb_spec t (now + 15 * 60 * 1000)); [lia|]. by rewrite Hsel.
Qed.

(** X5. Issue, then redeem: the session obtained with the token of a
    successful magic-link request, presented before it expires, is
    for the student record that the normalized email selected when
    the link was issued. *)
Theorem magic_link_then_verify now uuid body t now' u (w : World Base) :
  status (magic_link cfg now uuid body w).1 = 200 →
  uuid ≠ "" → t ≤ now + 15 * 60 * 1000 →
  ∃ e st rs,
    normalize (prop body "email") = Ok e
    ∧ select (base w) "Students" (byEmail e) = Ok (st :: rs)
    ∧ (verify t now' u {[ "token" := VStr uuid ]}
         (magic_link cfg now uuid body w).2).1
      = json (session_reply u (now' + SESSION_DURATION_MS) st).
Proof.
  intros Hok Hu Ht. apply String.eqb_neq in Hu. revert Hok.
  rewrite magic_link_unfold.
  destruct (truthy (prop body "email")); simpl; [|discriminate].
  destruct (normalize (prop body "email")) as [e|m]; simpl; [|discriminate].
  destruct (select (base w) "Students" (byEmail e)) as [[|st rs]|m] eqn:Hsel;
    simpl; try discriminate.
  destruct (firstName_of st) as [fn|m]; simpl; [|discriminate].
  assert (∀ w' : World Base,
            magicLinkTokens w'
            = <[ uuid := mkTokenData e (now + 15 * 60 * 1000) ]> (magicLinkTokens w) →
            base w' = base w →
            (verify t now' u {[ "token" := VStr uuid ]} w').1
            = json (session_reply u (now' + SESSION_DURATION_MS) st)) as Hredeem.
  { intros w' Htok Hbase. rewrite verify_unfold. unfold prop.
    rewrite lookup_singleton_eq. simpl. rewrite Hu, Htok, lookup_insert_eq. simpl.
    destruct (Z.gtb_spec t (now + 15 * 60 * 1000)); [lia|].
    by rewrite Hbase, Hsel. }
  destruct (resend cfg) as [send|]; simpl.
  - destruct (send _) as [[]|m]; simpl; [|discriminate].
    intros _. exists e, st, rs. split_and!; try done. by apply Hredeem.
  - intros _. exists e, st, rs. split_and!; try done. by apply Hredeem.
Qed.

(** X6. Issuing a link never revokes or alters another token, and
    never writes to the record store: a second link for the same
    student leaves the first one redeemable. *)
Theorem magic_link_keeps_other_tokens now uuid body t (w : World Base) :
  t ≠ uuid →
  magicLinkTokens (magic_link cfg now uuid body w).2 !! t = magicLinkTokens w !! t
  ∧ base (magic_link cfg now uuid body w).2 = base w.
Proof.
  intros Ht. rewrite magic_link_unfold.
  destruct (truthy (prop body "email")); simpl; [|done].
  destruct (normalize (prop body "email")) as [e|m]; simpl; [|done].
  destruct (select (base w) "Students" (byEmail e)) as [[|st rs]|m]; simpl;
    try done.
  destruct (firstName_of st) as [fn|m]; simpl; [|done].
  destruct (resend cfg) as [send|]; simpl;
    [destruct (send _) as [[]|m]; simpl|]; by rewrite lookup_insert_ne.
Qed.

(** X7. Tokens are never purged in the background: whatever requests
    are served, at whatever clock readings, a binding stays in the map
    until a verify request presents its token or a new link is issued
    under the same identifier. *)
Theorem tokens_stay_until_presented t td rs (w : World Base) :
  magicLinkTokens w !! t = Some td →
  Forall (λ r, ¬ issues t r ∧ ¬ redeems t r) rs →
  magicLinkTokens (run cfg rs w) !! t = Some td.
Proof.
  intros Hsome Hrs. revert w Hsome.
  induction Hrs as [|r rs [Hissue Hredeem] _ IH]; intros w Hsome; [done|].
  simpl. apply IH. by apply serve_bound.
Qed.

End Issuance.

(** ** Redeeming tokens *)

Section Redemption.

Context {Base : Type} `{RecordStore Base}.

(** X8. A verify request whose token is not in the token map is
    rejected without any effect: 400 when the token is missing or
    falsy, 401 otherwise, and the token map, the store and the trace
    stay as they were (nothing is deleted, no student is looked up). *)
Theorem verify_rejects_without_effect now now' uuid body (w : World Base) :
  (∀ t, prop body "token" = VStr t → magicLinkTokens w !! t = None) →
  verify now now' uuid body w
  = (if truthy (prop body "token")
     then error 401 "Invalid or expired link"
     else error 400 "Token is required", w).
Proof.
  intros Hnone. rewrite verify_unfold.
  destruct (prop body "token") as [| |b|n|t|xs|o] eqn:Htok; simpl; try done.
  - by destruct b.
  - by destruct (n =? 0).
  - destruct (String.eqb t ""); simpl; [done|]. by rewrite Hnone.
Qed.

(** X9. Presenting an expired token deletes it and queries no student:
    the answer is 401 "Link has expired", the only effect is the
    deletion, and presenting the token again, at any instant, is
    answered 401 "Invalid or expired link". *)
Theorem verify_expired_deletes_without_lookup now now' uuid body t td
    (w : World Base) :
  prop body "token" = VStr t → t ≠ "" →
  magicLinkTokens w !! t = Some td → expiresAt td < now →
  verify now now' uuid body w
  = (error 401 "Link has expired. Please request a new one.",
     mkWorld (delete t (magicLinkTokens w)) (base w) (trace w ++ [TokenDelete t]))
  ∧ ∀ now2 now2' uuid2,
      (verify now2 now2' uuid2 body (verify now now' uuid body w).2).1
      = error 401 "Invalid or expired link".
Proof.
  intros Htok Hne Hsome Hlate. apply String.eqb_neq in Hne.
  assert (verify now now' uuid body w
          = (error 401 "Link has expired. Please request a new one.",
             mkWorld (delete t (magicLinkTokens w)) (base w)
               (trace w ++ [TokenDelete t]))) as Hout.
  { rewrite verify_unfold, Htok, Hne, Hsome. simpl.
    destruct (Z.gtb_spec now (expiresAt td)); [done|lia]. }
  split; [done|]. intros now2 now2' uuid2.
  rewrite Hout, verify_unfold, Htok, Hne. simpl. by rewrite lookup_delete_eq.
Qed.

(** X10. When the student lookup of a redemption fails in the store,
    the request is answered 500 with the store's message, and the
    token is gone all the same: it was deleted before the lookup. *)
Theorem verify_store_error_consumes_token now now' uuid body t td message
    (w : World Base) :
  prop body "token" = VStr t → t ≠ "" →
  magicLinkTokens w !! t = Some td → now ≤ expiresAt td →
  select (base w) "Students" (byEmail (email td)) = Err message →
  (verify now now' uuid body w).1 = failure "Verification failed" message
  ∧ magicLinkTokens (verify now now' uuid body w).2 !! t = None
  ∧ ∀ now2 now2' uuid2,
      (verify now2 now2' uuid2 body (verify now now' uuid body w).2).1
      = error 401 "Invalid or expired link".
Proof.
  intros Htok Hne Hsome Hlive Hsel. apply String.eqb_neq in Hne.
  rewrite verify_unfold, Htok, Hne, Hsome. simpl.
  destruct (Z.gtb_spec now (expiresAt td)); [lia|]. rewrite Hsel. simpl.
  split_and!; [done|apply lookup_delete_eq|].
  intros now2 now2' uuid2. rewrite verify_unfold, Htok, Hne. simpl.
  by rewrite lookup_delete_eq.
Qed.

(** X11. A verify request touches no token but the one it presents
    and never writes to the record store. *)
Theorem verify_keeps_other_tokens now now' uuid body t (w : World Base) :
  prop body "token" ≠ VStr t →
  magicLinkTokens (verify now now' uuid body w).2 !! t = magicLinkTokens w !! t
  ∧ base (verify now now' uuid body w).2 = base w.
Proof.
  intros Hother. rewrite verify_unfold.
  destruct (prop body "token") as [| |b|n|t'|xs|o]; simpl;
    try (by repeat case_match).
  assert (t' ≠ t) as Hne by congruence.
  destruct (String.eqb t' ""); simpl; [done|].
  destruct (magicLinkTokens w !! t') as [td|]; simpl; [|done].
  destruct (now >? expiresAt td); simpl; [by rewrite lookup_delete_ne|].
  destruct (select _ _ _) as [[|s ss]|m]; simpl; by rewrite lookup_delete_ne.
Qed.

End Redemption.

(** ** The dev login *)

Section DevLogin.

Context {Base : Type} `{RecordStore Base}.
Variable cfg : Config.

(** X12. With the development flag set, a dev login without an email
    looks up the normalized [DEV_TEST_EMAIL] when that variable is set
    and not empty, and [test@example.com] otherwise; an email in the
    request takes precedence over both. *)
Theorem dev_login_default_email now uuid body (w : World Base) :
  DEV_MODE cfg = Some "true" →
  (truthy (prop body "email") = false →
   trace (dev_login cfg now uuid body w).2
   = trace w ++ [StudentsSelect
                   (byEmail (JsString.trim (JsString.toLowerCase
                      (env_or (DEV_TEST_EMAIL cfg) "test@example.com"))))])
  ∧ (∀ s, prop body "email" = VStr s → s ≠ "" →
     trace (dev_login cfg now uuid body w).2
     = trace w ++ [StudentsSelect
                     (byEmail (JsString.trim (JsString.toLowerCase s)))]).
Proof.
  intros Hflag. rewrite dev_login_unfold, Hflag. simpl. split.
  - intros He. unfold js_or. rewrite He. unfold normalize.
    by destruct (select _ _ _) as [[|s ss]|m].
  - intros s He Hs. apply String.eqb_neq in Hs. unfold js_or.
    rewrite He. simpl. rewrite Hs. simpl. unfold normalize.
    by destruct (select _ _ _) as [[|st ss]|m].
Qed.

(** X13. A dev login, successful or not, neither creates nor consumes
    a magic-link token and never writes to the record store: all it
    does to the outside is at most one query of the Students table. *)
Theorem dev_login_touches_no_token now uuid body (w : World Base) :
  magicLinkTokens (dev_login cfg now uuid body w).2 = magicLinkTokens w
  ∧ base (dev_login cfg now uuid body w).2 = base w
  ∧ ∃ new, trace (dev_login cfg now uuid body w).2 = trace w ++ new
           ∧ (new = [] ∨ ∃ formula, new = [StudentsSelect formula]).
Proof.
  rewrite dev_login_unfold.
  destruct (bool_decide _); simpl.
  - destruct (normalize _) as [e|m]; simpl.
    + destruct (select _ _ _) as [[|s ss]|m]; simpl; split_and!; try done;
        eexists; split; eauto.
    + split_and!; try done. exists []. split; [by rewrite app_nil_r|by left].
  - split_and!; try done. exists []. split; [by rewrite app_nil_r|by left].
Qed.

End DevLogin.

(** ** Fetching and hydrating *)

Section Fetch.

Context {Base : Type} `{RecordStore Base}.
Implicit Types (st : Base) (r : record).

(** Hydration does not depend on the order in which the meeting
    lookups complete. *)
Lemma hydrateStudent_order st order order' r :
  hydrateStudent st order r = hydrateStudent st order' r.
Proof.
  unfold hydrateStudent. destruct (has_elems _); [|done].
  destruct (js_map _ _); [|done]. by rewrite !Promise_all_in_order.
Qed.

(** What [get_student] does, branch by branch. *)
Lemma get_student_unfold order e (w : World Base) :
  get_student order e w =
    let w' := mkWorld (magicLinkTokens w) (base w)
                (trace w ++ [StudentsSelect (byEmail e)]) in
    match select (base w) "Students" (byEmail e) with
    | Err m => (failure "Failed to fetch student" m, w')
    | Ok [] => (error 404 "Student not found", w')
    | Ok (r :: _) =>
        match hydrateStudent (base w) order r with
        | Ok student => (json student, w')
        | Err m => (failure "Failed to fetch student" m, w')
        end
    end.
Proof.
  unfold get_student, getStudentByEmail. unfold_handler.
  destruct (select (base w) "Students" (byEmail e)) as [[|s rs]|m]; simpl;
    try reflexivity.
  by destruct (hydrateStudent (base w) order s).
Qed.

(** X14. The student fetch writes nothing: whatever it answers, the
    token map and the record store are as before, and of the events
    the trace records (token writes, queries and updates of the
    Students table, mail) it adds the one query of the Students table
    by the email: no token is set or deleted, no record updated, no
    mail sent. Its other accesses are the link lookups of hydration
    in the Mentors and meetings tables, reads by id of the unchanged
    store that the trace does not record: for a record found, the
    answer is the hydration of the first one, or 500 with the message
    of a hydration that throws. An email that selects nothing is
    answered 404, a failing store 500 with the store's message. *)
Theorem get_student_read_only order e (w : World Base) :
  let out := get_student order e w in
  magicLinkTokens out.2 = magicLinkTokens w
  ∧ base out.2 = base w
  ∧ trace out.2 = trace w ++ [StudentsSelect (byEmail e)]
  ∧ (∀ ev, ev ∈ trace out.2 → ev ∉ trace w →
       (∀ token data, ev ≠ TokenSet token data)
       ∧ (∀ token, ev ≠ TokenDelete token)
       ∧ (∀ recordId patch, ev ≠ StudentsUpdate recordId patch)
       ∧ (∀ m, ev ≠ MailSend m))
  ∧ (∀ r rs, select (base w) "Students" (byEmail e) = Ok (r :: rs) →
       out.1 = match hydrateStudent (base w) order r with
               | Ok student => json student
               | Err m => failure "Failed to fetch student" m
               end)
  ∧ (select (base w) "Students" (byEmail e) = Ok [] →
     out.1 = error 404 "Student not found")
  ∧ (∀ m, select (base w) "Students" (byEmail e) = Err m →
     out.1 = failure "Failed to fetch student" m).
Proof.
  intros out. subst out. rewrite get_student_unfold.
  assert ((let w' := mkWorld (magicLinkTokens w) (base w)
                       (trace w ++ [StudentsSelect (byEmail e)]) in
           match select (base w) "Students" (byEmail e) with
           | Err m => (failure "Failed to fetch student" m, w')
           | Ok [] => (error 404 "Student not found", w')
           | Ok (r :: _) =>
               match hydrateStudent (base w) order r with
               | Ok student => (json student, w')
               | Err m => (failure "Failed to fetch student" m, w')
               end
           end).2
          = mkWorld (magicLinkTokens w) (base w)
              (trace w ++ [StudentsSelect (byEmail e)])) as Hw
    by by repeat case_match.
  rewrite Hw. simpl. split_and!; try done.
  - intros ev Hev Hfresh. apply elem_of_app in Hev as [Hev|Hev]; [done|].
    apply list_elem_of_singleton in Hev as ->. by split_and!.
  - intros r rs ->. by destruct (hydrateStudent (base w) order r).
  - by intros ->.
  - by intros m ->.
Qed.

(** X15. The outcome of a student fetch and of a profile update does
    not depend on the order in which the concurrent meeting lookups
    complete. *)
Theorem completion_order_irrelevant order order' e body (w : World Base) :
  get_student order e w = get_student order' e w
  ∧ update_student order body w = update_student order' body w.
Proof.
  split.
  - rewrite !get_student_unfold.
    destruct (select _ _ _) as [[|r rs]|m]; simpl; try done.
    by rewrite (hydrateStudent_order _ order order').
  - rewrite !update_student_unfold. simpl.
    repeat case_match; try done;
      rewrite (hydrateStudent_order _ order order') in *; congruence.
Qed.

(** X16. The hydrator relies on [Student-Mentor Meetings] being a link
    column: when the cell is a non-empty text, hydration throws the
    TypeError of [meetingIds.map] on a string, and the fetch of that
    student is answered 500 with that message as details. *)
Theorem hydrate_text_meetings_throws st order r s :
  fields r !! "Student-Mentor Meetings" = Some (VStr s) → s ≠ "" →
  hydrateStudent st order r = Err "meetingIds.map is not a function"
  ∧ ∀ (w : World Base) e rs,
      base w = st → select st "Students" (byEmail e) = Ok (r :: rs) →
      (get_student order e w).1
      = failure "Failed to fetch student" "meetingIds.map is not a function".
Proof.
  intros Hcell Hs. apply String.eqb_neq in Hs.
  assert (hydrateStudent st order r = Err "meetingIds.map is not a function") as Hthrow.
  { unfold hydrateStudent.
    set (s0 := fields r ∪ {[ "id" := VStr (id r) ]}).
    assert (prop (hydrateMentor st "Lead Mentor" "leadMentor"
                    (hydrateMentor st "Recruitment Manager" "recruitmentManager" s0))
              "Student-Mentor Meetings" = VStr s) as ->.
    { unfold prop, s0. by rewrite !hydrateMentor_other, spread_lookup, Hcell. }
    simpl. by rewrite Hs. }
  split; [done|]. intros w e rs <- Hsel.
  by rewrite get_student_unfold, Hsel, Hthrow.
Qed.

(** X17. A hydrated mentor carries every cell of the mentor record,
    whatever the column, next to its [id] and [name]; a column named
    [id] or [name] takes precedence over the record id and the [Name]
    cell. Nothing else is in the object. *)
Theorem getMentorById_exposes_cells st i m :
  find st "Mentors" i = Ok m →
  ∃ o, getMentorById st i = VObj o
       ∧ (∀ k v, fields m !! k = Some v → o !! k = Some v)
       ∧ (fields m !! "id" = None → o !! "id" = Some (VStr (id m)))
       ∧ (fields m !! "name" = None → o !! "name" = Some (get m "Name"))
       ∧ (∀ k, k ≠ "id" → k ≠ "name" → o !! k = fields m !! k).
Proof.
  intros Hm. unfold getMentorById. rewrite Hm. eexists. split; [reflexivity|].
  split_and!.
  - intros k v Hk. by apply lookup_union_Some_l.
  - intros Hid. rewrite lookup_union_r by done. apply lookup_insert_eq.
  - intros Hname. rewrite lookup_union_r by done.
    rewrite lookup_insert_ne by done. apply lookup_singleton_eq.
  - intros k Hid Hname. rewrite lookup_union.
    rewrite lookup_insert_ne, lookup_singleton_ne by done.
    by destruct (fields m !! k).
Qed.

(** X18. A hydrated meeting resolves its first attending mentor only:
    [mentorAttended] is the mentor of the first id of [Mentors
    Attended] when the store finds it, and is not set otherwise,
    whatever the other ids. *)
Theorem getMeetingById_first_attendee_only st i m a others :
  find st "Student-Mentor Meetings" i = Ok m →
  fields m !! "Mentors Attended" = Some (VArr (a :: others)) →
  ∃ o, getMeetingById st i = VObj o
       ∧ o !! "mentorAttended"
         = match find st "Mentors" a with
           | Ok _ => Some (getMentorById st a)
           | Err _ => fields m !! "mentorAttended"
           end.
Proof.
  intros Hm Hcell. unfold getMeetingById. rewrite Hm.
  assert (prop (fields m ∪ {[ "id" := VStr (id m) ]}) "Mentors Attended"
          = VArr (a :: others)) as ->.
  { unfold prop. by rewrite spread_lookup, Hcell. }
  simpl. destruct (find st "Mentors" a) as [mentor|e] eqn:Ha.
  - destruct (getMentorById_found st a mentor Ha) as [o Ho]. rewrite Ho. simpl.
    eexists. split; [reflexivity|]. apply lookup_insert_eq.
  - rewrite (getMentorById_missing st a e Ha). simpl.
    eexists. split; [reflexivity|]. by apply spread_lookup.
Qed.

(** X19. A hydrated student carries every cell of its record unchanged,
    apart from the names the hydrator sets itself; [meetings] is always
    an array, also over a column of that name, and [id] is the record
    id unless a column is named [id]. *)
Theorem hydrateStudent_keeps_cells st order r s :
  hydrateStudent st order r = Ok s →
  (∀ k, k ∉ ["id"; "recruitmentManager"; "leadMentor"; "meetings"] →
        s !! k = fields r !! k)
  ∧ (fields r !! "id" = None → s !! "id" = Some (VStr (id r)))
  ∧ ∃ ms, s !! "meetings" = Some (VArr ms).
Proof.
  intros Hs. split_and!.
  - intros k Hk. by eapply hydrateStudent_cells.
  - intros Hid. revert Hs. unfold hydrateStudent.
    assert ((fields r ∪ {[ "id" := VStr (id r) ]}) !! "id" = Some (VStr (id r)))
      as Hbase.
    { rewrite lookup_union_r by done. apply lookup_singleton_eq. }
    destruct (has_elems _).
    + destruct (js_map _ _); [|discriminate]. intros [= <-].
      by rewrite lookup_insert_ne, !hydrateMentor_other.
    + intros [= <-]. by rewrite lookup_insert_ne, !hydrateMentor_other.
  - revert Hs. unfold hydrateStudent. destruct (has_elems _).
    + destruct (js_map _ _); [|discriminate]. intros [= <-].
      eexists. apply lookup_insert_eq.
    + intros [= <-]. eexists. apply lookup_insert_eq.
Qed.

End Fetch.

(** ** Edge cases of the profile update *)

Section UpdateEdges.

Context {Base : Type} `{RecordStore Base}.

(** X20. An update request is rejected with 400 before anything is
    looked up or written: "Email is required" when the email is missing
    or falsy, "Updates object is required" when [updates] is missing,
    null or not an object (a string, a number, a boolean). *)
Theorem update_rejects_bad_input order body (w : World Base) :
  (truthy (prop body "email") = false →
   update_student order body w = (error 400 "Email is required", w))
  ∧ (truthy (prop body "email") = true →
     (∀ o, prop body "updates" ≠ VObj o) →
     (∀ xs, prop body "updates" ≠ VArr xs) →
     update_student order body w = (error 400 "Updates object is required", w)).
Proof.
  split.
  - intros He. by rewrite update_student_unfold, He.
  - intros He Hobj Harr. rewrite update_student_unfold, He. simpl.
    destruct (prop body "updates") as [| |b|n|t|xs|o]; simpl;
      try done; try (by destruct b); try (by destruct (n =? 0));
      try (by destruct (String.eqb t "")).
    + by destruct (Harr xs).
    + by destruct (Hobj o).
Qed.

(** X21. An update for an email that selects no student is answered
    404 and writes nothing: the store is as before and the one effect
    is the query under the normalized email. *)
Theorem update_unknown_email_writes_nothing order body s (w : World Base) :
  prop body "email" = VStr s → s ≠ "" →
  truthy (prop body "updates") && typeof_object (prop body "updates") = true →
  select (base w) "Students"
    (byEmail (JsString.trim (JsString.toLowerCase s))) = Ok [] →
  update_student order body w
  = (error 404 "Student not found",
     mkWorld (magicLinkTokens w) (base w)
       (trace w ++ [StudentsSelect
                      (byEmail (JsString.trim (JsString.toLowerCase s)))])).
Proof.
  intros He Hs Hupd Hsel. apply String.eqb_neq in Hs.
  apply andb_true_iff in Hupd as [Ht Ho].
  rewrite update_student_unfold, He. simpl. rewrite Hs, Ht, Ho. simpl.
  unfold normalize. by rewrite Hsel.
Qed.

(** X22. An update whose [updates] holds no allow-listed field with a
    non-null value (an empty object, an array, only other fields, only
    nulls) still calls the store: the selected record is updated with
    an empty patch. *)
Theorem update_without_allowed_fields_sends_empty_patch order body s st rs
    (w : World Base) :
  prop body "email" = VStr s → s ≠ "" →
  truthy (prop body "updates") && typeof_object (prop body "updates") = true →
  (∀ k, k ∈ allowedFields → kept (prop body "updates") k = None) →
  select (base w) "Students"
    (byEmail (JsString.trim (JsString.toLowerCase s))) = Ok (st :: rs) →
  fieldsToUpdate (prop body "updates") = ∅
  ∧ trace (update_student order body w).2
    = trace w ++ [StudentsSelect (byEmail (JsString.trim (JsString.toLowerCase s)));
                  StudentsUpdate (id st) ∅].
Proof.
  intros He Hs Hupd Hnone Hsel. apply String.eqb_neq in Hs.
  apply andb_true_iff in Hupd as [Ht Ho].
  assert (fieldsToUpdate (prop body "updates") = ∅) as Hempty.
  { apply map_eq. intros k. rewrite fieldsToUpdate_lookup, lookup_empty.
    destruct (bool_decide_reflect (k ∈ allowedFields)); [by apply Hnone|done]. }
  split; [done|].
  rewrite update_student_unfold, He. simpl. rewrite Hs, Ht, Ho. simpl.
  unfold normalize. rewrite Hsel, Hempty.
  destruct (update _ _ _ _) as [[r|m] b]; simpl.
  - destruct (hydrateStudent b order r); simpl; by rewrite <- app_assoc.
  - by rewrite <- app_assoc.
Qed.

(** X23. Filtering is idempotent: the patch built from a patch is that
    patch, so what the store receives would pass the filter again
    unchanged. *)
Theorem fieldsToUpdate_idempotent updates :
  fieldsToUpdate (VObj (fieldsToUpdate updates)) = fieldsToUpdate updates.
Proof.
  apply map_eq. intros k. rewrite fieldsToUpdate_lookup.
  destruct (bool_decide_reflect (k ∈ allowedFields)) as [Hk|Hk].
  - assert (fieldsToUpdate updates !! k = kept updates k) as Hpatch.
    { by rewrite fieldsToUpdate_lookup, bool_decide_eq_true_2. }
    rewrite Hpatch. unfold kept at 1. unfold has_property, member, prop.
    rewrite Hpatch. unfold kept.
    destruct (has_property updates k); simpl; [|done].
    by destruct (member updates k).
  - by rewrite fieldsToUpdate_lookup, bool_decide_eq_false_2.
Qed.

(** X24. The values of allow-listed fields are not validated: whatever
    is not null or undefined goes into the patch as it is, the number
    0, [false], an array or an object included. *)
Theorem fieldsToUpdate_passes_any_non_null o f v :
  f ∈ allowedFields → o !! f = Some v → v ≠ VNull → v ≠ VUndefined →
  fieldsToUpdate (VObj o) !! f = Some v.
Proof.
  intros Hf Hv Hnull Hundef.
  rewrite fieldsToUpdate_lookup, bool_decide_eq_true_2 by done.
  unfold kept, has_property, member, prop. rewrite Hv. simpl.
  by destruct v.
Qed.

End UpdateEdges.

(** ** Normalized emails *)

Section NormalForm.

Import JsString.

Lemma lower_unit_idempotent c : lower_unit (lower_unit c) = lower_unit c.
Proof. destruct c as [[] [] [] [] [] [] [] []]; reflexivity. Qed.

Lemma is_space_lower_unit c : is_space (lower_unit c) = is_space c.
Proof. destruct c as [[] [] [] [] [] [] [] []]; reflexivity. Qed.

Lemma toLowerCase_idempotent s : toLowerCase (toLowerCase s) = toLowerCase s.
Proof.
  induction s as [|c s IH]; simpl; [done|].
  by rewrite lower_unit_idempotent, IH.
Qed.

Lemma trimStart_toLowerCase s :
  trimStart (toLowerCase s) = toLowerCase (trimStart s).
Proof.
  induction s as [|c s IH]; simpl; [done|].
  rewrite is_space_lower_unit. by destruct (is_space c).
Qed.

Lemma trimEnd_toLowerCase s :
  trimEnd (toLowerCase s) = toLowerCase (trimEnd s).
Proof.
  induction s as [|c s IH]; simpl; [done|].
  rewrite IH, is_space_lower_unit.
  destruct (trimEnd s); simpl; [|done]. by destruct (is_space c).
Qed.

(** Lower-casing and trimming commute. *)
Lemma trim_toLowerCase s : trim (toLowerCase s) = toLowerCase (trim s).
Proof. unfold trim. by rewrite trimStart_toLowerCase, trimEnd_toLowerCase. Qed.

(** A string that does not begin with white space. *)
Lemma trimStart_fixed s : trimStart (trimStart s) = trimStart s.
Proof.
  induction s as [|c s IH]; simpl; [done|].
  destruct (is_space c) eqn:Hc; [done|]. simpl. by rewrite Hc.
Qed.

Lemma trimEnd_idempotent s : trimEnd (trimEnd s) = trimEnd s.
Proof.
  induction s as [|c s IH]; simpl; [done|].
  destruct (trimEnd s) as [|d r] eqn:Hr.
  - destruct (is_space c) eqn:Hc; simpl; [done|]. by rewrite Hc.
  - simpl in *. by rewrite IH.
Qed.

(** Trimming the end of a string that does not begin with white space
    leaves a string that does not begin with white space. *)
Lemma trimStart_trimEnd s :
  trimStart s = s → trimStart (trimEnd s) = trimEnd s.
Proof.
  destruct s as [|c s]; simpl; [done|].
  destruct (is_space c) eqn:Hc.
  - intros Hs. exfalso.
    assert (String.length (trimStart s) ≤ String.length s)%nat as Hlen.
    { clear. induction s as [|d s IH]; simpl; [done|].
      destruct (is_space d); simpl; lia. }
    rewrite Hs in Hlen. simpl in Hlen. lia.
  - intros _. destruct (trimEnd s); simpl; by rewrite Hc.
Qed.

Lemma trim_idempotent s : trim (trim s) = trim s.
Proof.
  unfold trim.
  rewrite (trimStart_trimEnd (trimStart s)) by apply trimStart_fixed.
  apply trimEnd_idempotent.
Qed.

(** Lower-casing and trimming what was lower-cased and trimmed changes
    nothing. *)
Lemma trim_toLowerCase_fixed s :
  trim (toLowerCase (trim (toLowerCase s))) = trim (toLowerCase s).
Proof.
  rewrite (trim_toLowerCase s), toLowerCase_idempotent.
  by rewrite (trim_toLowerCase (trim s)), trim_idempotent.
Qed.

(** X25. Normalization is idempotent: the normalized email that
    issuance stores and mails is its own normalization, so looking a
    student up under it again selects with the same formula. *)
Theorem normalize_idempotent email e :
  normalize email = Ok e → normalize (VStr e) = Ok e.
Proof.
  unfold normalize. destruct email as [| | | |s| |]; try discriminate.
  intros [= <-]. f_equal. apply trim_toLowerCase_fixed.
Qed.

End NormalForm.

Section NormalizedTokens.

Context {Base : Type} `{RecordStore Base}.
Variable cfg : Config.

(** X26. The token map only ever binds tokens to normalized emails:
    if that holds of a state, it holds after any run of requests. *)
Theorem tokens_bound_to_normalized_emails rs (w : World Base) :
  (∀ t td, magicLinkTokens w !! t = Some td →
           normalize (VStr (email td)) = Ok (email td)) →
  ∀ t td, magicLinkTokens (run cfg rs w) !! t = Some td →
          normalize (VStr (email td)) = Ok (email td).
Proof.
  revert w. induction rs as [|r rs IH]; intros w Hw; [done|].
  simpl. apply IH. intros t td.
  destruct r as [now uuid b|now uuid b|now now' uuid b|o e|o b]; simpl.
  - destruct (magic_link_tokens cfg now uuid b w) as [[-> _]|(e & He & ->)];
      [apply Hw|].
    destruct (decide (uuid = t)) as [->|Hne].
    + rewrite lookup_insert_eq. intros [= <-]. simpl.
      unfold normalize in He |- *.
      destruct (prop b "email") as [| | | |s| |]; try discriminate.
      injection He as <-. f_equal. apply trim_toLowerCase_fixed.
    + rewrite lookup_insert_ne by done. apply Hw.
  - rewrite dev_login_tokens. apply Hw.
  - destruct (verify_tokens now now' uuid b w) as [->|(t' & _ & ->)]; [apply Hw|].
    intros Hin. apply lookup_delete_Some in Hin as [_ Hin]. by eapply Hw.
  - rewrite get_student_tokens. apply Hw.
  - rewrite update_student_tokens. apply Hw.
Qed.

End NormalizedTokens.

(** ** The mentor directory *)

Section Directory.

Context {Base : Type} `{RecordListing Base}.

(** X27. The directory answers with one card per record the store
    returned, in the store's order: the server neither sorts nor drops
    a mentor, and the card at each position carries the id and the
    [Name] of the record at that position. The request changes nothing,
    and a failing store is answered 500 with the store's message. *)
Theorem list_mentors_keeps_store_order (w : World Base) :
  (∀ rs, select_all (base w) "Mentors" "{Mentor Active Status} = 'Active'"
           "Name" "asc" = Ok rs →
     list_mentors w
     = (json {[ "mentors" := VArr (map (λ r, VObj (mentor_card r)) rs) ]}, w)
     ∧ ∃ cards,
         body (list_mentors w).1 !! "mentors" = Some (VArr cards)
         ∧ length cards = length rs
         ∧ ∀ i r, rs !! i = Some r →
             ∃ card, cards !! i = Some (VObj card)
                     ∧ card !! "id" = Some (VStr (id r))
                     ∧ card !! "name" = Some (get r "Name"))
  ∧ (∀ m, select_all (base w) "Mentors" "{Mentor Active Status} = 'Active'"
            "Name" "asc" = Err m →
     list_mentors w = (failure "Failed to fetch mentors" m, w)).
Proof.
  unfold list_mentors, handler, mbind, M_bind, mret, M_ret. split.
  - intros rs ->. simpl. split; [done|].
    eexists. split; [apply lookup_singleton_eq|].
    split; [by rewrite length_map|].
    intros i r Hi. exists (mentor_card r). split_and!; [|done|done].
    by rewrite list_lookup_fmap, Hi.
  - by intros m ->.
Qed.

(** X28. A card exposes the sixteen listed keys and nothing else: its
    content is determined by the record id and the fifteen columns the
    handler reads, so no other column of the Mentors table reaches the
    directory. *)
Theorem mentor_card_exposes_listed_columns_only r :
  (∀ k, k ∉ ["id"; "name"; "headshot"; "company"; "jobTitle"; "industry";
             "education"; "degree"; "graduationYear"; "location"; "type";
             "linkedin"; "skills"; "intro"; "previousExperience"; "otherOffers"] →
        mentor_card r !! k = None)
  ∧ ∀ r', id r' = id r →
      (∀ c, c ∈ ["Name"; "Headshot"; "Current/Upcoming Company"; "Job Title";
                 "Industry/Sector & Group"; "Education"; "Degree";
                 "Graduation Year"; "Location"; "Type of Mentor"; "LinkedIn";
                 "Skills"; "Mentor Intro"; "AI Mentor Intro";
                 "Previous Experience"; "What other offers did you receive?"] →
            fields r' !! c = fields r !! c) →
      mentor_card r' = mentor_card r.
Proof.
  split.
  - intros k Hk. unfold mentor_card. by apply not_elem_of_list_to_map_1.
  - intros r' Hid Hcols. apply Forall_forall in Hcols.
    repeat (apply Forall_cons in Hcols as [? Hcols]).
    unfold mentor_card, get, prop. by repeat match goal with
      | Heq : fields r' !! _ = _ |- _ => rewrite Heq; clear Heq
      end; rewrite Hid.
Qed.

End Directory.

(** ** The AI chat *)

Section Chat.

Variable rt : Runtime.

(** X29. The error paths of the chat: without a configured client the
    answer is 503 whatever the payload, the missing message included;
    with a client, a missing or falsy message is answered 400 without
    the client being called; a call the client rejects, and a reply
    without a content block, are answered 500. *)
Theorem chat_error_paths payload :
  chat rt None payload
  = error 503 "AI service not configured. Please add ANTHROPIC_API_KEY to .env"
  ∧ (truthy (prop payload "message") = false →
     ∀ create, chat rt (Some create) payload = error 400 "Message is required")
  ∧ (truthy (prop payload "message") = true →
     ∀ prompt hs,
       systemPrompt rt (prop payload "studentContext") = Ok prompt →
       prop payload "conversationHistory" = VArr hs →
       (∀ create m, (∀ request, create request = Err m) →
          chat rt (Some create) payload = failure "Failed to get AI response" m)
       ∧ (∀ create, (∀ request, create request = Ok (VObj {[ "content" := VArr [] ]})) →
          chat rt (Some create) payload
          = failure "Failed to get AI response"
              "Cannot read properties of undefined (reading 'text')")).
Proof.
  split_and!.
  - reflexivity.
  - intros Hm create. unfold chat. by rewrite Hm.
  - intros Hm prompt hs Hp Hh. unfold chat. rewrite Hm, Hp, Hh. simpl. split.
    + intros create m Hdown. unfold mbind, result_bind.
      destruct (negb (bool_decide (hs = []))); simpl; by rewrite Hdown.
    + intros create Hempty. unfold mbind, result_bind.
      destruct (negb (bool_decide (hs = []))); simpl; by rewrite Hempty.
Qed.

(** X30. The chat sends the conversation history first, in the order
    received, and the new message last, as a user turn, with the fixed
    model and token limit and the rendered system prompt; its answer is
    the text of the first content block of the reply. Without a
    history, the new message is the only one sent. *)
Theorem chat_sends_history_then_message payload create prompt hs :
  truthy (prop payload "message") = true →
  systemPrompt rt (prop payload "studentContext") = Ok prompt →
  (prop payload "conversationHistory" = VArr hs
   ∨ hs = [] ∧ truthy (prop payload "conversationHistory") = false) →
  ∃ request,
    model request = "claude-sonnet-4-20250514"
    ∧ max_tokens request = 1024
    ∧ system request = prompt
    ∧ messages request
      = hs ++ [VObj {[ "role" := VStr "user";
                       "content" := prop payload "message" ]}]
    ∧ chat rt (Some create) payload
      = match create request with
        | Ok response =>
            match first_text response with
            | Ok text => json {[ "success" := VBool true; "message" := text ]}
            | Err e => failure "Failed to get AI response" e
            end
        | Err e => failure "Failed to get AI response" e
        end.
Proof.
  intros Hm Hp Hh. eexists (mkChatRequest _ _ _ _). split_and!; try reflexivity.
  unfold chat. rewrite Hm, Hp. simpl. unfold mbind, result_bind.
  destruct Hh as [->|[-> ->]]; simpl.
  - destruct hs as [|h hs]; simpl.
    + destruct (create _) as [response|e]; [|done].
      by destruct (first_text response).
    + destruct (create _) as [response|e]; [|done].
      by destruct (first_text response).
  - destruct (create _) as [response|e]; [|done].
    by destruct (first_text response).
Qed.

End Chat.

(** ** The further properties at work on the sample data *)

Section MoreWitnesses.

Import MemStore Sample SampleExtra.

Lemma magic_link_requires_email_witness :
  truthy (prop (∅ : gmap string value) "email") = false
  ∧ magic_link cfg 1000 "tok-1" ∅ w0 = (error 400 "Email is required", w0).
Proof.
  split; [reflexivity|].
  apply (magic_link_requires_email cfg 1000 "tok-1" ∅ w0). reflexivity.
Defined.

Lemma magic_link_unknown_email_witness :
  select (base w0) "Students" (byEmail "nobody@example.com") = Ok []
  ∧ status (magic_link cfg 1000 "tok-1" nobody_login w0).1 = 404
  ∧ magicLinkTokens (magic_link cfg 1000 "tok-1" nobody_login w0).2 = ∅.
Proof.
  split; [reflexivity|].
  rewrite (magic_link_unknown_email cfg 1000 "tok-1" nobody_login
             " Nobody@Example.com" w0).
  - split; reflexivity.
  - reflexivity.
  - discriminate.
  - vm_compute; reflexivity.
Defined.

Lemma magic_link_exposes_link_without_mailer_only_witness :
  status (magic_link cfg 1000 "tok-1" jane_login w0).1 = 200
  ∧ body (magic_link cfg 1000 "tok-1" jane_login w0).1 !! "magicLink"
    = Some (VStr "http://localhost:3000?token=tok-1")
  ∧ body (magic_link cfg_mail_up 1000 "tok-1" jane_login w0).1 !! "magicLink" = None.
Proof.
  split; [vm_compute; reflexivity|]. split.
  - destruct (magic_link_exposes_link_without_mailer_only cfg 1000 "tok-1"
                jane_login w0) as [Hdev _]; [vm_compute; reflexivity|].
    destruct Hdev as (Hlink & _); [reflexivity|]. exact Hlink.
  - destruct (magic_link_exposes_link_without_mailer_only cfg_mail_up 1000 "tok-1"
                jane_login w0) as [_ Hmail]; [vm_compute; reflexivity|].
    destruct (Hmail send_up) as (Hbody & _); [reflexivity|].
    rewrite Hbody. reflexivity.
Defined.

Lemma magic_link_send_failure_keeps_token_witness :
  resend cfg_mail_down = Some send_down
  ∧ status (magic_link cfg_mail_down 1000 "tok-1" jane_login w0).1 = 500
  ∧ status (verify 2000 2500 "sess-1" tok1
              (magic_link cfg_mail_down 1000 "tok-1" jane_login w0).2).1 = 200.
Proof.
  split; [reflexivity|].
  destruct (magic_link_send_failure_keeps_token cfg_mail_down 1000 "tok-1"
              jane_login "Jane@Example.com " jane [] (VStr "Jane") send_down
              "mailer down" w0) as (Hresp & _ & Hredeem).
  - reflexivity.
  - discriminate.
  - discriminate.
  - vm_compute; reflexivity.
  - vm_compute; reflexivity.
  - reflexivity.
  - reflexivity.
  - split; [by rewrite Hresp|].
    change tok1 with ({[ "token" := VStr "tok-1" ]} : gmap string value).
    rewrite (Hredeem 2000 2500 "sess-1"); [reflexivity|lia].
Defined.

Lemma magic_link_then_verify_witness :
  status (magic_link cfg 1000 "tok-1" jane_login w0).1 = 200
  ∧ ∃ st, (verify 2000 2500 "sess-1" tok1
             (magic_link cfg 1000 "tok-1" jane_login w0).2).1
          = json (session_reply "sess-1" (2500 + SESSION_DURATION_MS) st)
          ∧ id st = "recJane".
Proof.
  split; [vm_compute; reflexivity|].
  destruct (magic_link_then_verify cfg 1000 "tok-1" jane_login 2000 2500 "sess-1" w0)
    as (e & st & rs & He & Hsel & Hsession).
  - vm_compute; reflexivity.
  - discriminate.
  - lia.
  - exists st. split; [exact Hsession|].
    assert (e = "jane@example.com") as -> by (by injection He as <-).
    by injection Hsel as <- _.
Defined.

Lemma magic_link_keeps_other_tokens_witness :
  "tok-1" ≠ "tok-2"
  ∧ magicLinkTokens (magic_link cfg 2000 "tok-2" jane_login w1).2 !! "tok-1"
    = Some (mkTokenData "jane@example.com" 901000).
Proof.
  split; [discriminate|].
  destruct (magic_link_keeps_other_tokens cfg 2000 "tok-2" jane_login "tok-1" w1)
    as [-> _]; [discriminate|]. reflexivity.
Defined.

Lemma tokens_stay_until_presented_witness :
  magicLinkTokens w1 !! "tok-1" = Some (mkTokenData "jane@example.com" 901000)
  ∧ magicLinkTokens
      (run cfg [GetStudent [] "jane@example.com";
                Verify 99000000 99000000 "sess-9" tok2;
                MagicLink 99000000 "tok-3" jane_login] w1) !! "tok-1"
    = Some (mkTokenData "jane@example.com" 901000).
Proof.
  split; [reflexivity|].
  apply (tokens_stay_until_presented cfg "tok-1"); [reflexivity|].
  repeat constructor; simpl; try tauto; discriminate.
Defined.

Lemma verify_rejects_without_effect_witness :
  magicLinkTokens w0 !! "tok-1" = None
  ∧ verify 2000 2500 "sess-1" tok1 w0 = (error 401 "Invalid or expired link", w0).
Proof.
  split; [reflexivity|].
  rewrite (verify_rejects_without_effect 2000 2500 "sess-1" tok1 w0);
    [reflexivity|].
  intros t [= <-]. reflexivity.
Defined.

Lemma verify_expired_deletes_without_lookup_witness :
  magicLinkTokens w1 !! "tok-1" = Some (mkTokenData "jane@example.com" 901000)
  ∧ trace (verify 901001 901001 "sess-1" tok1 w1).2 = trace w1 ++ [TokenDelete "tok-1"]
  ∧ (verify 2000 2500 "sess-2" tok1 (verify 901001 901001 "sess-1" tok1 w1).2).1
    = error 401 "Invalid or expired link".
Proof.
  split; [reflexivity|].
  destruct (verify_expired_deletes_without_lookup 901001 901001 "sess-1" tok1
              "tok-1" (mkTokenData "jane@example.com" 901000) w1)
    as [Hout Hagain].
  - reflexivity.
  - discriminate.
  - reflexivity.
  - simpl; lia.
  - split; [by rewrite Hout|apply Hagain].
Defined.

Lemma verify_store_error_consumes_token_witness :
  select (base wb) "Students" (byEmail "jane@example.com") = Err "ECONNRESET"
  ∧ (verify 2000 2500 "sess-1" tok1 wb).1 = failure "Verification failed" "ECONNRESET"
  ∧ magicLinkTokens (verify 2000 2500 "sess-1" tok1 wb).2 !! "tok-1" = None.
Proof.
  split; [reflexivity|].
  destruct (verify_store_error_consumes_token 2000 2500 "sess-1" tok1 "tok-1"
              (mkTokenData "jane@example.com" 5000) "ECONNRESET" wb)
    as (Hresp & Hgone & _).
  - reflexivity.
  - discriminate.
  - reflexivity.
  - simpl; lia.
  - reflexivity.
  - split; [exact Hresp|exact Hgone].
Defined.

Lemma verify_keeps_other_tokens_witness :
  prop tok2 "token" ≠ VStr "tok-1"
  ∧ magicLinkTokens (verify 2000 2500 "sess-1" tok2
                       (magic_link cfg 1500 "tok-2" jane_login w1).2).2 !! "tok-1"
    = Some (mkTokenData "jane@example.com" 901000).
Proof.
  split; [discriminate|].
  destruct (verify_keeps_other_tokens 2000 2500 "sess-1" tok2 "tok-1"
              (magic_link cfg 1500 "tok-2" jane_login w1).2) as [-> _];
    [discriminate|]. vm_compute; reflexivity.
Defined.

Lemma dev_login_default_email_witness :
  DEV_MODE cfg_dev = Some "true"
  ∧ trace (dev_login cfg_dev 1000 "sess-1" ∅ w0).2
    = [StudentsSelect (byEmail "test@example.com")].
Proof.
  split; [reflexivity|].
  destruct (dev_login_default_email cfg_dev 1000 "sess-1" ∅ w0) as [Hdefault _];
    [reflexivity|]. rewrite Hdefault; reflexivity.
Defined.

Lemma get_student_read_only_witness :
  select (base w0) "Students" (byEmail "nobody@example.com") = Ok []
  ∧ (get_student [] "nobody@example.com" w0).1 = error 404 "Student not found"
  ∧ (get_student [] "jane@example.com" wb).1
    = failure "Failed to fetch student" "ECONNRESET"
  ∧ (∃ student,
       hydrateStudent airtable [] jane = Ok student
       ∧ (get_student [] "jane@example.com" w0).1 = json student)
  ∧ (∀ recordId patch,
       StudentsUpdate recordId patch ∉ trace (get_student [] "jane@example.com" w0).2).
Proof.
  split; [reflexivity|]. split_and!.
  - destruct (get_student_read_only [] "nobody@example.com" w0)
      as (_ & _ & _ & _ & _ & Hnone & _).
    apply Hnone. reflexivity.
  - destruct (get_student_read_only [] "jane@example.com" wb)
      as (_ & _ & _ & _ & _ & _ & Hdown).
    apply Hdown. reflexivity.
  - destruct (get_student_read_only [] "jane@example.com" w0)
      as (_ & _ & _ & _ & Hfound & _).
    specialize (Hfound jane [] eq_refl). simpl in Hfound.
    destruct (hydrateStudent airtable [] jane) as [student|m] eqn:Hh;
      [|vm_compute in Hh; discriminate].
    by exists student.
  - intros recordId patch Hin.
    destruct (get_student_read_only [] "jane@example.com" w0)
      as (_ & _ & _ & Hwrites & _).
    destruct (Hwrites _ Hin) as (_ & _ & Hupd & _); [apply not_elem_of_nil|].
    by apply (Hupd recordId patch).
Defined.

Lemma hydrate_text_meetings_throws_witness :
  fields zoe !! "Student-Mentor Meetings" = Some (VStr "recM1")
  ∧ status (get_student [] "zoe@example.com" wz).1 = 500.
Proof.
  split; [reflexivity|].
  destruct (hydrate_text_meetings_throws (base wz) [] zoe "recM1") as [_ Hfetch];
    [reflexivity|discriminate|].
  rewrite (Hfetch wz "zoe@example.com" []); reflexivity.
Defined.

Lemma getMentorById_exposes_cells_witness :
  find airtable "Mentors" (VStr "recMia") = Ok mia
  ∧ ∃ o, getMentorById airtable (VStr "recMia") = VObj o
         ∧ o !! "Name" = Some (VStr "Mia Chen")
         ∧ o !! "id" = Some (VStr "recMia").
Proof.
  split; [reflexivity|].
  destruct (getMentorById_exposes_cells airtable (VStr "recMia") mia)
    as (o & Ho & Hcells & Hid & _); [reflexivity|].
  exists o. split_and!; [exact Ho| |].
  - apply Hcells. reflexivity.
  - apply Hid. reflexivity.
Defined.

Lemma getMeetingById_first_attendee_only_witness :
  find panel "Student-Mentor Meetings" (VStr "recM9")
  = Ok (meeting "recM9" [VStr "recMia"; VStr "recGone"])
  ∧ ∃ o, getMeetingById panel (VStr "recM9") = VObj o
         ∧ o !! "mentorAttended" = Some (getMentorById panel (VStr "recMia")).
Proof.
  split; [reflexivity|].
  destruct (getMeetingById_first_attendee_only panel (VStr "recM9")
              (meeting "recM9" [VStr "recMia"; VStr "recGone"])
              (VStr "recMia") [VStr "recGone"]) as (o & Ho & Hattended);
    [reflexivity|reflexivity|].
  exists o. split; [exact Ho|exact Hattended].
Defined.

Lemma hydrateStudent_keeps_cells_witness :
  ∃ s, hydrateStudent airtable [] jane = Ok s
       ∧ s !! "GPA" = Some (VStr "3.7")
       ∧ s !! "id" = Some (VStr "recJane").
Proof.
  destruct (hydrateStudent airtable [] jane) as [s|m] eqn:Hs;
    [|vm_compute in Hs; discriminate].
  exists s. split; [reflexivity|].
  destruct (hydrateStudent_keeps_cells airtable [] jane s Hs) as (Hcells & Hid & _).
  split.
  - rewrite Hcells; [reflexivity|].
    rewrite !not_elem_of_cons. split_and!; try discriminate. apply not_elem_of_nil.
  - apply Hid. reflexivity.
Defined.

Lemma update_rejects_bad_input_witness :
  let bad : gmap string value :=
    {[ "email" := VStr "jane@example.com"; "updates" := VStr "GPA=4.0" ]} in
  truthy (prop bad "email") = true
  ∧ update_student [] bad w0 = (error 400 "Updates object is required", w0)
  ∧ update_student [] {[ "updates" := VObj jane_updates ]} w0
    = (error 400 "Email is required", w0).
Proof.
  intros bad. split; [reflexivity|]. split.
  - destruct (update_rejects_bad_input [] bad w0) as [_ Hupdates].
    apply Hupdates; [reflexivity|discriminate|discriminate].
  - destruct (update_rejects_bad_input [] {[ "updates" := VObj jane_updates ]} w0)
      as [Hemail _].
    apply Hemail. reflexivity.
Defined.

Lemma update_unknown_email_writes_nothing_witness :
  let unknown : gmap string value :=
    {[ "email" := VStr " Nobody@Example.com"; "updates" := VObj jane_updates ]} in
  select (base w0) "Students" (byEmail "nobody@example.com") = Ok []
  ∧ (update_student [] unknown w0).1 = error 404 "Student not found"
  ∧ base (update_student [] unknown w0).2 = airtable.
Proof.
  intros unknown. split; [reflexivity|].
  rewrite (update_unknown_email_writes_nothing [] unknown " Nobody@Example.com" w0).
  - split; reflexivity.
  - reflexivity.
  - discriminate.
  - reflexivity.
  - vm_compute; reflexivity.
Defined.

Lemma update_without_allowed_fields_sends_empty_patch_witness :
  let listed : gmap string value :=
    {[ "email" := VStr "jane@example.com"; "updates" := VArr [VStr "GPA"] ]} in
  select (base w0) "Students" (byEmail "jane@example.com") = Ok [jane]
  ∧ trace (update_student [] listed w0).2
    = [StudentsSelect (byEmail "jane@example.com"); StudentsUpdate "recJane" ∅].
Proof.
  intros listed. split; [reflexivity|].
  destruct (update_without_allowed_fields_sends_empty_patch [] listed
              "jane@example.com" jane [] w0) as [_ Htrace].
  - reflexivity.
  - discriminate.
  - reflexivity.
  - intros k _. reflexivity.
  - vm_compute; reflexivity.
  - rewrite Htrace. reflexivity.
Defined.

Lemma fieldsToUpdate_passes_any_non_null_witness :
  "GPA" ∈ allowedFields
  ∧ fieldsToUpdate (VObj {[ "GPA" := VNum 0 ]}) !! "GPA" = Some (VNum 0)
  ∧ fieldsToUpdate (VObj {[ "GPA" := VArr [VBool false] ]}) !! "GPA"
    = Some (VArr [VBool false]).
Proof.
  assert ("GPA" ∈ allowedFields) as Hin.
  { unfold allowedFields. rewrite !elem_of_cons. auto 10. }
  split; [exact Hin|]. split.
  - apply (fieldsToUpdate_passes_any_non_null {[ "GPA" := VNum 0 ]} "GPA");
      [exact Hin|reflexivity|discriminate|discriminate].
  - apply (fieldsToUpdate_passes_any_non_null {[ "GPA" := VArr [VBool false] ]} "GPA");
      [exact Hin|reflexivity|discriminate|discriminate].
Defined.

Lemma normalize_idempotent_witness :
  normalize (VStr "  Jane@Example.com ") = Ok "jane@example.com"
  ∧ normalize (VStr "jane@example.com") = Ok "jane@example.com".
Proof.
  split; [reflexivity|].
  apply (normalize_idempotent (VStr "  Jane@Example.com ")). reflexivity.
Defined.

Lemma tokens_bound_to_normalized_emails_witness :
  ∃ td, magicLinkTokens (run cfg [MagicLink 1000 "tok-1" jane_login] w0) !! "tok-1"
        = Some td
        ∧ normalize (VStr (email td)) = Ok (email td).
Proof.
  exists (mkTokenData "jane@example.com" 901000). split; [reflexivity|].
  apply (tokens_bound_to_normalized_emails cfg [MagicLink 1000 "tok-1" jane_login]
           w0) with (t := "tok-1").
  - intros t td Hin. simpl in Hin. rewrite lookup_empty in Hin. discriminate.
  - reflexivity.
Defined.

Lemma list_mentors_keeps_store_order_witness :
  select_all (base wd) "Mentors" "{Mentor Active Status} = 'Active'" "Name" "asc"
  = Ok [ana; ben]
  ∧ (∃ cards, body (list_mentors wd).1 !! "mentors" = Some (VArr cards)
              ∧ length cards = 2%nat
              ∧ ∃ card, cards !! 1%nat = Some (VObj card)
                        ∧ card !! "id" = Some (VStr "recBen"))
  ∧ list_mentors (mkWorld ∅ (tt : broken) [])
    = (failure "Failed to fetch mentors" "ECONNRESET", mkWorld ∅ (tt : broken) []).
Proof.
  split; [reflexivity|]. split.
  - destruct (list_mentors_keeps_store_order wd) as [Hok _].
    destruct (Hok [ana; ben]) as (_ & cards & Hcards & Hlen & Hat); [reflexivity|].
    exists cards. split_and!; [exact Hcards|exact Hlen|].
    destruct (Hat 1%nat ben) as (card & Hcard & Hid & _); [reflexivity|].
    exists card. split; [exact Hcard|exact Hid].
  - destruct (list_mentors_keeps_store_order (mkWorld ∅ (tt : broken) []))
      as [_ Hdown].
    apply Hdown. reflexivity.
Defined.

Lemma mentor_card_exposes_listed_columns_only_witness :
  fields ana !! "Personal Email" = Some (VStr "ana@home.example")
  ∧ mentor_card ana !! "Personal Email" = None
  ∧ mentor_card ana_public = mentor_card ana.
Proof.
  split; [reflexivity|].
  destruct (mentor_card_exposes_listed_columns_only ana) as [Hkeys Hcols]. split.
  - apply Hkeys. rewrite !not_elem_of_cons.
    split_and!; try discriminate. apply not_elem_of_nil.
  - apply Hcols; [reflexivity|].
    intros c Hc. rewrite !elem_of_cons in Hc.
    repeat (destruct Hc as [->|Hc]; [reflexivity|]). by apply elem_of_nil in Hc.
Defined.

Lemma chat_error_paths_witness :
  truthy (prop chat_body "message") = true
  ∧ chat rt (Some client_down) chat_body
    = failure "Failed to get AI response" "overloaded"
  ∧ status (chat rt (Some client_empty) chat_body) = 500
  ∧ chat rt (Some client) {[ "conversationHistory" := VArr [] ]}
    = error 400 "Message is required".
Proof.
  split; [reflexivity|].
  destruct (systemPrompt rt (prop chat_body "studentContext")) as [prompt|m] eqn:Hp;
    [|vm_compute in Hp; discriminate].
  destruct (chat_error_paths rt chat_body) as (_ & _ & Hcalled).
  destruct (Hcalled eq_refl prompt [turn "user" "Hi"; turn "assistant" "Hello"]
              Hp eq_refl) as [Hdown Hempty].
  split_and!.
  - apply Hdown. reflexivity.
  - rewrite (Hempty client_empty); reflexivity.
  - destruct (chat_error_paths rt {[ "conversationHistory" := VArr [] ]})
      as (_ & Hmissing & _).
    apply Hmissing. reflexivity.
Defined.

Lemma chat_sends_history_then_message_witness :
  prop chat_body "conversationHistory" = VArr [turn "user" "Hi"; turn "assistant" "Hello"]
  ∧ chat rt (Some client) chat_body
    = json {[ "success" := VBool true; "message" := VStr "three messages" ]}.
Proof.
  split; [reflexivity|].
  destruct (systemPrompt rt (prop chat_body "studentContext")) as [prompt|m] eqn:Hp;
    [|vm_compute in Hp; discriminate].
  destruct (chat_sends_history_then_message rt chat_body client prompt
              [turn "user" "Hi"; turn "assistant" "Hello"])
    as (request & _ & _ & _ & Hmessages & Hchat);
    [reflexivity|exact Hp|by left|].
  rewrite Hchat. unfold client. rewrite Hmessages. reflexivity.
Defined.

End MoreWitnesses.
